(** * The pull-request poll loop of [jx delete app]

    A shallow embedding of [DeleteAppOptions.waitForGitOpsPullRequest]
    (pkg/jx/cmd/delete_app.go): the loop that refreshes a promotion pull
    request, merges it when its last commit is green, and gives up when the
    request is closed, when the build went red, or when the deadline passed.

    The loop talks to a git provider and to the clock.  Both are made
    explicit: the provider is a script of replies indexed by the iteration
    number, the clock is a number of nanoseconds threaded through every
    call, and every call, log line and clock access is recorded in a trace. *)

From Stdlib Require Import ZArith NArith List String Ascii Bool Lia.
Import ListNotations.

Local Open Scope Z_scope.
Local Open Scope list_scope.

(** ** Data *)

(** Modelled from the spec: the type [gits.GitPullRequest] and its method
    [IsClosed] are declared in pkg/gits, which is not part of the sources at
    hand.  Only the members the loop reads are kept: [pr.URL], the pointer
    [pr.Merged] ([None] is the nil pointer), [pr.LastCommitSha], and the
    boolean answer of [pr.IsClosed()] (the spec's [closedFlag]). *)
Record GitPullRequest : Type := mkPR {
  URL : string;
  Merged : option bool;
  Closed : bool;
  LastCommitSha : string
}.

Definition IsClosed (pr : GitPullRequest) : bool := Closed pr.

(** [pr.Merged != nil && *pr.Merged] *)
Definition isMerged (pr : GitPullRequest) : bool :=
  match Merged pr with
  | Some b => b
  | None => false
  end.

(** The fields of [DeleteAppOptions] the loop reads.  The two durations are
    pointers in the source, set by [Run] only when the matching flag is not
    the empty string; [None] is the nil pointer.  Durations and instants are
    nanosecond counts, taken as integers without the 64-bit bound. *)
Record DeleteAppOptions : Type := mkOptions {
  NoMergePullRequest : bool;
  TimeoutDuration : option Z;
  PullRequestPollDuration : option Z
}.

(** What a provider call answers, and how long the call took (never a
    negative time). *)
Record Reply (A : Type) : Type := mkReply {
  took : N;
  answer : A
}.
Arguments mkReply {A} took answer.
Arguments took {A} r.
Arguments answer {A} r.

(** A Go [error] value coming from the provider is kept as its text;
    [None] is [nil]. *)
Definition error : Type := option string.

(** The replies of the provider during one iteration of the loop.
    [UpdatePullRequestStatus] overwrites the pull request in place and
    returns an error; [PullRequestLastCommitStatus] returns a status and an
    error; [MergePullRequest] returns an error.  A reply is consumed only if
    the loop makes the call. *)
Record TickReplies : Type := mkReplies {
  update : Reply (GitPullRequest * error);
  lastCommitStatus : Reply (string * error);
  merge : Reply error
}.

(** [ReleasePullRequestInfo]: the provider (one bundle of replies per
    iteration, counted from 0) and the pull request. *)
Record ReleasePullRequestInfo : Type := mkInfo {
  GitProvider : nat -> TickReplies;
  PullRequest : GitPullRequest
}.

(** The errors built by the loop with [fmt.Errorf], by call site. *)
Inductive PollError : Type :=
| ErrQueryStatus (url err : string)
| ErrClosed (url : string)
| ErrCommitStatus (url status sha : string)
| ErrTimedOut (url : string) (duration : Z).

(** What the outside world sees, in order. *)
Inductive Event : Type :=
| EvPrintf (msg : string)
| EvWarnf (msg : string)
| EvUpdatePullRequestStatus (tick : nat)
| EvPullRequestLastCommitStatus (tick : nat)
| EvMergePullRequest (tick : nat) (message : string)
| EvNow (t : Z)
| EvSleep (d : Z).

(** ** The monad of the loop body

    A computation starts at a clock value and yields the events it emitted,
    the clock value it ends at, and how it ended. *)
Inductive Res (A : Type) : Type :=
| Val (a : A)
| Return (err : option PollError)
| Panic.
Arguments Val {A} a.
Arguments Return {A} err.
Arguments Panic {A}.

Definition M (A : Type) : Type := Z -> list Event * Z * Res A.

Definition pure {A : Type} (a : A) : M A := fun c => ([], c, Val a).

Definition bind {A B : Type} (m : M A) (k : A -> M B) : M B :=
  fun c =>
    match m c with
    | (e1, c1, Val a) =>
        match k a c1 with
        | (e2, c2, r) => (e1 ++ e2, c2, r)
        end
    | (e1, c1, Return err) => (e1, c1, Return err)
    | (e1, c1, Panic) => (e1, c1, Panic)
    end.

Notation "x <- m ;; k" := (bind m (fun x => k))
  (at level 61, m at next level, right associativity).
Notation "' p <- m ;; k" := (bind m (fun x => match x with p => k end))
  (at level 61, p pattern, m at next level, right associativity).
Notation "m ;;; k" := (bind m (fun _ => k))
  (at level 61, right associativity).

(** [return err] of the enclosing Go function. *)
Definition return_ {A : Type} (err : option PollError) : M A :=
  fun c => ([], c, Return err).

(** Dereferencing a nil pointer. *)
Definition panic {A : Type} : M A := fun c => ([], c, Panic).

Definition emit (e : Event) : M unit := fun c => ([e], c, Val tt).

Definition elapsed {A : Type} (r : Reply A) : Z := Z.of_N (took r).

(** A provider call: recorded, and the clock moves by the time it took. *)
Definition call {A : Type} (e : Event) (r : Reply A) : M A :=
  fun c => ([e], c + elapsed r, Val (answer r)).

(** [time.Now()] *)
Definition Now : M Z := fun c => ([EvNow c], c, Val c).

(** [time.Sleep(d)]: returns at once when [d <= 0]. *)
Definition Sleep (d : Z) : M unit :=
  fun c => ([EvSleep d], c + Z.max 0 d, Val tt).

(** A run with some events put in front. *)
Definition prefixed {A : Type} (evs : list Event)
    (x : list Event * Z * Res A) : list Event * Z * Res A :=
  match x with
  | (e, c, r) => (evs ++ e, c, r)
  end.

Definition events {A : Type} (x : list Event * Z * Res A) : list Event :=
  fst (fst x).
Definition clockAfter {A : Type} (x : list Event * Z * Res A) : Z :=
  snd (fst x).
Definition result {A : Type} (x : list Event * Z * Res A) : Res A :=
  snd x.

(** ** The loop *)

Definition nl : string := String (ascii_of_nat 10) EmptyString.

(** The variables of the loop that live across iterations. *)
Record Locals : Type := mkLocals {
  pr : GitPullRequest;
  logMergeFailure : bool
}.

Definition mergeMessage : string :=
  "jx promote automatically merged promotion PR".

Section Loop.

(** [util.ColorInfo] (terminal colouring) and [time.Duration.String] are
    library functions outside the sources; they only shape texts. *)
Variable ColorInfo : string -> string.
Variable DurationString : Z -> string.

Local Open Scope string_scope.

(** [err.Error()] of the errors the loop returns. *)
Definition Error (e : PollError) : string :=
  match e with
  | ErrQueryStatus url err =>
      "Failed to query the Pull Request status for " ++ url ++ " " ++ err
  | ErrClosed url =>
      "Promotion failed as Pull Request " ++ url ++ " is closed without merging"
  | ErrCommitStatus url status sha =>
      "Pull request " ++ url ++ " last commit has status " ++ status
        ++ " for ref " ++ sha
  | ErrTimedOut url duration =>
      "Timed out waiting for pull request " ++ url ++ " to merge. Waited "
        ++ DurationString duration
  end.

Definition msgWaiting (url : string) : string :=
  "Waiting for pull request " ++ url ++ " to merge" ++ nl.
Definition msgMerged (url : string) : string :=
  "Pull Request " ++ ColorInfo url ++ " is merged!" ++ nl.
Definition msgClosed (url : string) : string :=
  "Pull Request " ++ ColorInfo url ++ " is closed" ++ nl.
Definition msgStatusQueryFailed (url sha err : string) : string :=
  "Failed to query the Pull Request last commit status for " ++ url
    ++ " ref " ++ sha ++ " " ++ err ++ nl.
Definition msgMergeFailed (url err : string) : string :=
  "Failed to merge the Pull Request " ++ url ++ " due to " ++ err
    ++ " maybe I don't have karma?" ++ nl.

Local Close Scope string_scope.

Definition Printf (msg : string) : M unit := emit (EvPrintf msg).
Definition warnf (msg : string) : M unit := emit (EvWarnf msg).

Definition UpdatePullRequestStatus (g : nat -> TickReplies) (n : nat)
  : M (GitPullRequest * error) :=
  call (EvUpdatePullRequestStatus n) (update (g n)).

Definition PullRequestLastCommitStatus (g : nat -> TickReplies) (n : nat)
  : M (string * error) :=
  call (EvPullRequestLastCommitStatus n) (lastCommitStatus (g n)).

Definition MergePullRequest (g : nat -> TickReplies) (n : nat)
    (message : string) : M error :=
  call (EvMergePullRequest n message) (merge (g n)).

(** Lines 258-276: the decision taken on an open pull request.  It yields
    the new value of [logMergeFailure]. *)
Definition tryMerge (o : DeleteAppOptions) (g : nat -> TickReplies)
    (n : nat) (p : GitPullRequest) (lmf : bool) : M bool :=
  '(status, err) <- PullRequestLastCommitStatus g n ;;
  match err with
  | Some err =>
      warnf (msgStatusQueryFailed (URL p) (LastCommitSha p) err) ;;;
      pure lmf
  | None =>
      if String.eqb status "success" then
        if negb (NoMergePullRequest o) then
          err <- MergePullRequest g n mergeMessage ;;
          match err with
          | Some err =>
              if negb lmf then
                warnf (msgMergeFailed (URL p) err) ;;; pure true
              else pure lmf
          | None => pure lmf
          end
        else pure lmf
      else if String.eqb status "error" || String.eqb status "failure" then
        return_ (Some (ErrCommitStatus (URL p) status (LastCommitSha p)))
      else pure lmf
  end.

(** Lines 278-281: the deadline check and the sleep that end an
    iteration. *)
Definition endOfTick (o : DeleteAppOptions) (end_ duration : Z)
    (p : GitPullRequest) (lmf : bool) : M Locals :=
  now <- Now ;;
  if end_ <? now then
    return_ (Some (ErrTimedOut (URL p) duration))
  else
    match PullRequestPollDuration o with
    | None => panic
    | Some d => Sleep d ;;; pure (mkLocals p lmf)
    end.

(** Lines 243-281: one iteration of [for { ... }].  [Val] carries the
    locals into the next iteration. *)
Definition tick (o : DeleteAppOptions) (g : nat -> TickReplies)
    (end_ duration : Z) (n : nat) (l : Locals) : M Locals :=
  '(p, err) <- UpdatePullRequestStatus g n ;;
  match err with
  | Some err => return_ (Some (ErrQueryStatus (URL p) err))
  | None =>
      if isMerged p then
        Printf (msgMerged (URL p)) ;;; return_ None
      else if IsClosed p then
        warnf (msgClosed (URL p)) ;;; return_ (Some (ErrClosed (URL p)))
      else
        lmf <- tryMerge o g n p (logMergeFailure l) ;;
        endOfTick o end_ duration p lmf
  end.

(** The [for] loop, run for at most [fuel] iterations starting with
    iteration [n].  [Val] means that the loop is still running when the fuel
    is used up. *)
Fixpoint pollLoop (fuel : nat) (o : DeleteAppOptions) (g : nat -> TickReplies)
    (end_ duration : Z) (n : nat) (l : Locals) : M Locals :=
  match fuel with
  | O => pure l
  | S fuel' =>
      l' <- tick o g end_ duration n l ;;
      pollLoop fuel' o g end_ duration (S n) l'
  end.

(** [waitForGitOpsPullRequest]; the [env] argument is unused by the source
    and left out. *)
Definition waitForGitOpsPullRequest (fuel : nat) (o : DeleteAppOptions)
    (pullRequestInfo : option ReleasePullRequestInfo) (end_ duration : Z)
  : M Locals :=
  match pullRequestInfo with
  | Some info =>
      let p := PullRequest info in
      Printf (msgWaiting (URL p)) ;;;
      pollLoop fuel o (GitProvider info) end_ duration 0 (mkLocals p false)
  | None => return_ None
  end.

(** Lines 230-233, the end of [deleteAppFromEnvironment]: the deadline is
    the time of the call plus the timeout. *)
Definition deleteAppFromEnvironment_wait (fuel : nat) (o : DeleteAppOptions)
    (info : option ReleasePullRequestInfo) : M Locals :=
  match TimeoutDuration o with
  | None => panic
  | Some duration =>
      now <- Now ;;
      waitForGitOpsPullRequest fuel o info (now + duration) duration
  end.

End Loop.

(** The number of iterations a trace has started. *)
Fixpoint ticks (evs : list Event) : nat :=
  match evs with
  | [] => O
  | EvUpdatePullRequestStatus _ :: evs' => S (ticks evs')
  | _ :: evs' => ticks evs'
  end.

(** The warnings of a trace. *)
Fixpoint warnings (evs : list Event) : list string :=
  match evs with
  | [] => []
  | EvWarnf msg :: evs' => msg :: warnings evs'
  | _ :: evs' => warnings evs'
  end.

(** The iterations in which a trace calls [MergePullRequest]. *)
Fixpoint mergeCalls (evs : list Event) : list nat :=
  match evs with
  | [] => []
  | EvMergePullRequest n _ :: evs' => n :: mergeCalls evs'
  | _ :: evs' => mergeCalls evs'
  end.

(** The clock values read by [time.Now()], in order. *)
Fixpoint nowReadings (evs : list Event) : list Z :=
  match evs with
  | [] => []
  | EvNow t :: evs' => t :: nowReadings evs'
  | _ :: evs' => nowReadings evs'
  end.

(** What the replies [t] of the last iteration and the clock [c] at its end
    must look like for the loop to return [err]. *)
Definition justified (t : TickReplies) (end_ duration c : Z)
    (err : option PollError) : Prop :=
  let (p, e) := answer (update t) in
  match err with
  | None => e = None /\ isMerged p = true
  | Some (ErrQueryStatus u m) => e = Some m /\ u = URL p
  | Some (ErrClosed u) =>
      e = None /\ isMerged p = false /\ IsClosed p = true /\ u = URL p
  | Some (ErrCommitStatus u s sha) =>
      e = None /\ isMerged p = false /\ IsClosed p = false /\
      answer (lastCommitStatus t) = (s, None) /\
      (s = "failure"%string \/ s = "error"%string) /\
      u = URL p /\ sha = LastCommitSha p
  | Some (ErrTimedOut u d) =>
      e = None /\ isMerged p = false /\ IsClosed p = false /\
      end_ < c /\ u = URL p /\ d = duration
  end.

(** [strings.Contains s sub], as a proposition. *)
Definition Contains (s sub : string) : Prop :=
  exists before after : string, s = (before ++ sub ++ after)%string.

(** ** Further observations on a trace *)

(** The durations slept, in order. *)
Fixpoint sleeps (evs : list Event) : list Z :=
  match evs with
  | [] => []
  | EvSleep d :: evs' => d :: sleeps evs'
  | _ :: evs' => sleeps evs'
  end.

(** The warnings about a refused merge are the ones that start like
    [msgMergeFailed]. *)
Definition isMergeFailure (msg : string) : bool :=
  String.prefix "Failed to merge the Pull Request " msg.

Fixpoint mergeFailuresLogged (evs : list Event) : nat :=
  match evs with
  | [] => O
  | EvWarnf msg :: evs' =>
      if isMergeFailure msg then S (mergeFailuresLogged evs')
      else mergeFailuresLogged evs'
  | _ :: evs' => mergeFailuresLogged evs'
  end.

(** The time the three provider calls of one iteration take together. *)
Definition tickLatency (t : TickReplies) : Z :=
  elapsed (update t) + elapsed (lastCommitStatus t) + elapsed (merge t).

(** ** The application name of a Jenkins job *)

(** [strings.Split(s, sep)] of the Go library for a separator [sep] of one
    byte: the pieces of [s] between the occurrences of [sep], one more than
    there are occurrences. *)
Fixpoint Split (s : string) (sep : ascii) : list string :=
  match s with
  | EmptyString => [EmptyString]
  | String a s' =>
      if Ascii.eqb a sep then EmptyString :: Split s' sep
      else
        match Split s' sep with
        | piece :: pieces => String a piece :: pieces
        | [] => [String a EmptyString]
        end
  end.

Definition slash : ascii := ascii_of_nat 47.

(** [appNameFromJenkinsJobName]: [path[len(path)-1]] of
    [strings.Split(name, "/")].  Indexing a slice out of its range panics;
    [None] is that panic.  An empty slice gives the index [-1]. *)
Definition appNameFromJenkinsJobName (name : string) : option string :=
  let path := Split name slash in
  match path with
  | [] => None
  | _ :: _ => nth_error path (List.length path - 1)
  end.

(** The string has no byte [/]. *)
Fixpoint noSlash (s : string) : bool :=
  match s with
  | EmptyString => true
  | String a s' => negb (Ascii.eqb a slash) && noSlash s'
  end.

(** ** Deleting an application: [deleteApp] and [deleteAppFromEnvironment] *)

(** Modelled from the spec: the type [v1.Environment] is declared in
    pkg/apis, which is not part of the sources at hand.  The two members
    read here are kept: [env.Spec.Label] and [env.Spec.Source.URL] (the
    git repository of the spec's environment repository). *)
Record Environment : Type := mkEnv {
  Label : string;
  SourceURL : string
}.

(** An error returned by [deleteApp] or by [Run]: one built by the poll
    loop; one handed up unchanged from a collaborator (kept as its text);
    and the errors [Run] builds itself: a duration flag that does not
    parse, "There are no Apps in Jenkins", and [util.InvalidArg]. *)
Inductive DurationFlag : Type := PollTimeFlag | TimeoutFlag.

Inductive AppError : Type :=
| PollFailed (e : PollError)
| CallFailed (msg : string)
| InvalidDuration (flag : DurationFlag) (value err : string)
| NoApps
| InvalidArgument (arg : string) (names : list string).

(** What the outside world sees of [deleteApp]: the events of the poll
    loop and of its logging, and the calls to the collaborators. *)
Inductive AppEvent : Type :=
| Ev (e : Event)
| EvCollaborator (name : string)
| EvCreateEnvironmentPullRequest (env : Environment)
    (removedApp branchName title message : string)
| EvDeleteJob (job : string)
| EvSelectNamesWithFilter (names : list string)
| EvConfirm (message : string).

(** How the call of a Go function that returns an [error] ends: with that
    value, with a panic, or not within the fuel given to a poll loop. *)
Inductive Outcome : Type :=
| Finished (err : option AppError)
| Crashed
| OutOfFuel.

Definition Call : Type := Z -> list AppEvent * Z * Outcome.

Definition finish (err : option AppError) : Call := fun c => ([], c, Finished err).

(** [err := f(); if err != nil { return err }; rest] *)
Definition orReturn (f rest : Call) : Call :=
  fun c =>
    match f c with
    | (e1, c1, Finished None) =>
        match rest c1 with
        | (e2, c2, r) => (e1 ++ e2, c2, r)
        end
    | other => other
    end.

(** [x, err := f(); if err != nil { return err }; rest x] for a
    collaborator [f] whose reply is [r]. *)
Definition collaborate {A : Type} (e : AppEvent) (r : Reply (A * error))
    (rest : A -> Call) : Call :=
  fun c =>
    match answer r with
    | (_, Some err) => ([e], c + elapsed r, Finished (Some (CallFailed err)))
    | (a, None) =>
        match rest a (c + elapsed r) with
        | (e2, c2, out) => (e :: e2, c2, out)
        end
    end.

(** A run of the poll loop seen from [deleteApp]. *)
Definition ofWait (x : list Event * Z * Res Locals)
  : list AppEvent * Z * Outcome :=
  match x with
  | (evs, c, Val _) => (map Ev evs, c, OutOfFuel)
  | (evs, c, Return err) => (map Ev evs, c, Finished (option_map PollFailed err))
  | (evs, c, Panic) => (map Ev evs, c, Crashed)
  end.

(** The replies of the collaborators of one [deleteApp] call.  The
    environments come as the map and the ordered names of
    [kube.GetOrderedEnvironments]; [None] in the map is a missing key or a
    nil pointer.  [createEnvironmentPullRequest] is asked once per
    environment; its replies are numbered by the position of the
    environment in the ordered names. *)
Record AppWorld : Type := mkWorld {
  createApiExtensionsClient : Reply (unit * error);
  registerEnvironmentCRD : Reply (unit * error);
  jxClientAndDevNamespace : Reply (unit * error);
  getOrderedEnvironments :
    Reply ((string -> option Environment) * list string * error);
  currentUser : Reply (string * error);
  createEnvironmentPullRequest :
    nat -> Reply (option ReleasePullRequestInfo * error);
  deleteJob : Reply (unit * error)
}.

Section DeleteApp.

Variable ColorInfo : string -> string.

Local Open Scope string_scope.

Definition msgRemoving (appName label : string) : string :=
  "Removing app " ++ appName ++ " from environment " ++ label ++ nl.
Definition branchNameFor (appName : string) : string := "delete-" ++ appName.
Definition titleFor (appName : string) : string :=
  "Delete application " ++ appName ++ " from this environment".
Definition messageFor (username : string) : string :=
  "The command `jx delete app` was run by " ++ username
    ++ " and it generated this Pull Request".

Local Close Scope string_scope.

(** [deleteAppFromEnvironment] (lines 211-234).  The function handed to
    [createEnvironmentPullRequest] removes [appName] from the requirements;
    the event records that name. *)
Definition deleteAppFromEnvironment (fuel : nat) (o : DeleteAppOptions)
    (create : Reply (option ReleasePullRequestInfo * error))
    (env : Environment) (appName username : string) : Call :=
  if String.eqb (SourceURL env) "" then finish None
  else
    fun c =>
      match
        collaborate
          (EvCreateEnvironmentPullRequest env appName (branchNameFor appName)
             (titleFor appName) (messageFor username))
          create
          (fun info c' =>
             ofWait (deleteAppFromEnvironment_wait ColorInfo fuel o info c'))
          c
      with
      | (evs, c', out) =>
          (Ev (EvPrintf (msgRemoving appName (Label env))) :: evs, c', out)
      end.

(** The loop of [deleteApp] over the ordered environment names (lines
    191-200), from position [i] on. *)
Fixpoint removeFromEnvironments (fuel : nat) (o : DeleteAppOptions)
    (w : AppWorld) (envMap : string -> option Environment)
    (appName username : string) (i : nat) (envNames : list string) : Call :=
  match envNames with
  | [] => finish None
  | envName :: rest =>
      match envMap envName with
      | Some env =>
          orReturn
            (deleteAppFromEnvironment fuel o
               (createEnvironmentPullRequest w i) env appName username)
            (removeFromEnvironments fuel o w envMap appName username (S i)
               rest)
      | None =>
          removeFromEnvironments fuel o w envMap appName username (S i) rest
      end
  end.

(** [deleteApp] (lines 167-204) for the Jenkins job [name]. *)
Definition deleteApp (fuel : nat) (o : DeleteAppOptions) (w : AppWorld)
    (name : string) : Call :=
  collaborate (EvCollaborator "CreateApiExtensionsClient")
    (createApiExtensionsClient w) (fun _ =>
  collaborate (EvCollaborator "RegisterEnvironmentCRD")
    (registerEnvironmentCRD w) (fun _ =>
  collaborate (EvCollaborator "JXClientAndDevNamespace")
    (jxClientAndDevNamespace w) (fun _ =>
  collaborate (EvCollaborator "GetOrderedEnvironments")
    (getOrderedEnvironments w) (fun envs =>
  collaborate (EvCollaborator "user.Current")
    (currentUser w) (fun username =>
  match appNameFromJenkinsJobName name with
  | None => fun c => ([], c, Crashed)
  | Some appName =>
      orReturn
        (removeFromEnvironments fuel o w (fst envs) appName username 0
           (snd envs))
        (collaborate (EvDeleteJob name) (deleteJob w) (fun _ => finish None))
  end))))).

End DeleteApp.

(** ** The command: [Run] *)

(** Modelled from the spec: the type [gojenkins.Job] belongs to a library
    outside the sources.  Kept are the member [FullName] and the answer of
    [jenkins.IsMultiBranchProject] on the job. *)
Record Job : Type := mkJob {
  FullName : string;
  multiBranch : bool
}.

(** The flags and arguments of the command that [Run] reads besides the
    options of the loop: [o.Args], [o.PullRequestPollTime], [o.Timeout]. *)
Record RunFlags : Type := mkFlags {
  Args : list string;
  PullRequestPollTime : string;
  Timeout : string
}.

(** The replies of the collaborators of one [Run]; every [deleteApp] call
    has its own, numbered by the position of the application in the
    arguments. *)
Record RunWorld : Type := mkRunWorld {
  jenkinsClient : Reply (unit * error);
  loadAllJenkinsJobs : Reply (list Job * error);
  selectNamesWithFilter : Reply (list string * error);
  confirm : Reply bool;
  apps : nat -> AppWorld
}.

(** [strings.Join(elems, sep)] of the Go library. *)
Fixpoint Join (elems : list string) (sep : string) : string :=
  match elems with
  | [] => EmptyString
  | [x] => x
  | x :: rest => (x ++ sep ++ Join rest sep)%string
  end.

(** Lines 104-113: the names of the multi-branch projects, in the order of
    the jobs, and the map from a name to the last such job of that name
    ([None] is a missing key). *)
Fixpoint collectApps (jobs : list Job) (names : list string)
    (m : string -> option Job) : list string * (string -> option Job) :=
  match jobs with
  | [] => (names, m)
  | j :: rest =>
      if multiBranch j then
        collectApps rest (names ++ [FullName j])
          (fun k => if String.eqb k (FullName j) then Some j else m k)
      else collectApps rest names m
  end.

Section Command.

Variable ColorInfo : string -> string.

(** [time.ParseDuration] (the duration, or the text of the error) and
    [util.StringArrayIndex] lie outside the sources. *)
Variable ParseDuration : string -> Z + string.
Variable StringArrayIndex : list string -> string -> Z.

(** Lines 115-128, for one flag: the empty string leaves the pointer as it
    is. *)
Definition parseFlag (value : string) (current : option Z)
  : option Z + string :=
  if String.eqb value "" then inl current
  else
    match ParseDuration value with
    | inl duration => inl (Some duration)
    | inr err => inr err
    end.

(** Lines 140-144: the first argument that is not the name of an
    application. *)
Fixpoint firstInvalidArg (names args : list string) : option string :=
  match args with
  | [] => None
  | arg :: rest =>
      if StringArrayIndex names arg <? 0 then Some arg
      else firstInvalidArg names rest
  end.

Definition msgConfirm (deleteMessage : string) : string :=
  ("You are about to delete these Applications from Jenkins: "
     ++ deleteMessage)%string.
Definition msgDeleted (deleteMessage : string) : string :=
  ("Deleted Applications " ++ ColorInfo deleteMessage ++ nl)%string.

(** Lines 154-162: the loop over the chosen names, from position [i]
    on. *)
Fixpoint deleteApps (fuel : nat) (o : DeleteAppOptions) (w : RunWorld)
    (m : string -> option Job) (i : nat) (args : list string) : Call :=
  match args with
  | [] => finish None
  | name :: rest =>
      match m name with
      | Some _ =>
          orReturn (deleteApp ColorInfo fuel o (apps w i) name)
            (deleteApps fuel o w m (S i) rest)
      | None => deleteApps fuel o w m (S i) rest
      end
  end.

(** Lines 146-164: from the second emptiness check to the end. *)
Definition confirmAndDelete (fuel : nat) (o : DeleteAppOptions)
    (w : RunWorld) (m : string -> option Job) (args : list string) : Call :=
  match args with
  | [] => finish (Some NoApps)
  | _ :: _ =>
      let deleteMessage := Join args ", " in
      fun c =>
        let c1 := c + elapsed (confirm w) in
        if negb (answer (confirm w)) then
          ([EvConfirm (msgConfirm deleteMessage)], c1, Finished None)
        else
          match
            orReturn (deleteApps fuel o w m 0 args)
              (fun c' =>
                 ([Ev (EvPrintf (msgDeleted deleteMessage))], c',
                  Finished None)) c1
          with
          | (evs, c2, out) =>
              (EvConfirm (msgConfirm deleteMessage) :: evs, c2, out)
          end
  end.

(** [Run] (lines 91-165).  The options handed to [deleteApp] are the ones
    given, with the two durations set from the flags. *)
Definition Run (fuel : nat) (flags : RunFlags) (o : DeleteAppOptions)
    (w : RunWorld) : Call :=
  collaborate (EvCollaborator "JenkinsClient") (jenkinsClient w) (fun _ =>
  collaborate (EvCollaborator "LoadAllJenkinsJobs") (loadAllJenkinsJobs w)
    (fun jobs =>
  let (names, m) := collectApps jobs [] (fun _ => None) in
  match parseFlag (PullRequestPollTime flags) (PullRequestPollDuration o) with
  | inr err =>
      finish (Some (InvalidDuration PollTimeFlag (PullRequestPollTime flags)
                      err))
  | inl poll =>
  match parseFlag (Timeout flags) (TimeoutDuration o) with
  | inr err =>
      finish (Some (InvalidDuration TimeoutFlag (Timeout flags) err))
  | inl timeout =>
  let o' := mkOptions (NoMergePullRequest o) timeout poll in
  match names with
  | [] => finish (Some NoApps)
  | _ :: _ =>
      match Args flags with
      | [] =>
          collaborate (EvSelectNamesWithFilter names)
            (selectNamesWithFilter w)
            (fun args => confirmAndDelete fuel o' w m args)
      | _ :: _ =>
          match firstInvalidArg names (Args flags) with
          | Some arg => finish (Some (InvalidArgument arg names))
          | None => confirmAndDelete fuel o' w m (Args flags)
          end
      end
  end
  end
  end)).

End Command.

Definition traceOf (x : list AppEvent * Z * Outcome) : list AppEvent :=
  fst (fst x).
Definition clockOf (x : list AppEvent * Z * Outcome) : Z := snd (fst x).
Definition outcomeOf (x : list AppEvent * Z * Outcome) : Outcome := snd x.

(** The five calls [deleteApp] makes before it looks at the environments
    all returned [nil]. *)
Definition preliminariesSucceeded (w : AppWorld) : Prop :=
  snd (answer (createApiExtensionsClient w)) = None
  /\ snd (answer (registerEnvironmentCRD w)) = None
  /\ snd (answer (jxClientAndDevNamespace w)) = None
  /\ snd (answer (getOrderedEnvironments w)) = None
  /\ snd (answer (currentUser w)) = None.

(** The pull requests asked for, and the jobs deleted, in a trace. *)
Fixpoint pullRequestsCreated (evs : list AppEvent) : list Environment :=
  match evs with
  | [] => []
  | EvCreateEnvironmentPullRequest env _ _ _ _ :: evs' =>
      env :: pullRequestsCreated evs'
  | _ :: evs' => pullRequestsCreated evs'
  end.

Fixpoint jobsDeleted (evs : list AppEvent) : list string :=
  match evs with
  | [] => []
  | EvDeleteJob job :: evs' => job :: jobsDeleted evs'
  | _ :: evs' => jobsDeleted evs'
  end.

(** ** Concrete providers and options, used to run the loop *)

Module Examples.

Local Open Scope string_scope.

Definition second : Z := 1000000000.

(** No colouring, and the text of the one duration the examples wait for. *)
Definition plain (s : string) : string := s.
Definition fortySeconds (_ : Z) : string := "40s".

Definition url : string := "https://github.com/acme/env-staging/pull/7".
Definition sha : string := "4f2a9c1".

Definition openPR : GitPullRequest := mkPR url (Some false) false sha.
Definition mergedPR : GitPullRequest := mkPR url (Some true) false sha.
Definition mergedClosedPR : GitPullRequest := mkPR url (Some true) true sha.
Definition closedPR : GitPullRequest := mkPR url (Some false) true sha.

(** [--timeout 40s --pull-request-poll-time 20s] *)
Definition opts : DeleteAppOptions :=
  mkOptions false (Some (40 * second)) (Some (20 * second)).
Definition optsNoMerge : DeleteAppOptions :=
  mkOptions true (Some (40 * second)) (Some (20 * second)).

(** Replies that arrive instantly. *)
Definition instantly {A : Type} (a : A) : Reply A := mkReply 0%N a.

Definition openWith (status : string) : TickReplies :=
  mkReplies (instantly (openPR, None)) (instantly (status, None))
            (instantly None).

(** The build of the last commit is red in every iteration. *)
Definition redProvider (_ : nat) : TickReplies := openWith "failure".

(** The build is still running in every iteration. *)
Definition pendingProvider (_ : nat) : TickReplies := openWith "pending".

(** The first status refresh fails; from then on the request is merged. *)
Definition flakyProvider (n : nat) : TickReplies :=
  match n with
  | O => mkReplies (instantly (openPR, Some "502 Bad Gateway"))
                   (instantly ("pending", None)) (instantly None)
  | S _ => mkReplies (instantly (mergedPR, None))
                     (instantly ("success", None)) (instantly None)
  end.

(** The build is green and every merge is refused. *)
Definition refusingProvider (_ : nat) : TickReplies :=
  mkReplies (instantly (openPR, None)) (instantly ("success", None))
            (instantly (Some "405 Method Not Allowed")).

(** The commit status cannot be queried. *)
Definition noStatusProvider (_ : nat) : TickReplies :=
  mkReplies (instantly (openPR, None)) (instantly ("", Some "404 Not Found"))
            (instantly None).

Definition mergedClosedProvider (_ : nat) : TickReplies :=
  mkReplies (instantly (mergedClosedPR, None)) (instantly ("success", None))
            (instantly None).

(** The request is found merged at the first refresh. *)
Definition mergedProvider (_ : nat) : TickReplies :=
  mkReplies (instantly (mergedPR, None)) (instantly ("success", None))
            (instantly None).

Definition closedProvider (_ : nat) : TickReplies :=
  mkReplies (instantly (closedPR, None)) (instantly ("success", None))
            (instantly None).

Definition infoOf (g : nat -> TickReplies) : option ReleasePullRequestInfo :=
  Some (mkInfo g openPR).

(** The build is green and the merge accepted in the first iteration;
    from the second on the request is found merged. *)
Definition mergingProvider (n : nat) : TickReplies :=
  match n with
  | O => openWith "success"
  | S _ => mergedProvider n
  end.

(** [--pull-request-poll-time ""]: the poll time stays nil. *)
Definition optsNoPoll : DeleteAppOptions :=
  mkOptions false (Some (40 * second)) None.

(** Two environments, one of them without a git source. *)
Definition stagingEnv : Environment :=
  mkEnv "Staging" "https://github.com/acme/env-staging.git".
Definition devEnv : Environment := mkEnv "Development" "".

Definition environments (name : string) : option Environment :=
  if String.eqb name "dev" then Some devEnv
  else if String.eqb name "staging" then Some stagingEnv
  else None.

(** Collaborators that all succeed at once; the pull request of every
    environment gets merged. *)
Definition calmWorld : AppWorld :=
  mkWorld (instantly (tt, None)) (instantly (tt, None))
    (instantly (tt, None))
    (instantly (environments, ["dev"; "staging"; "production"], None))
    (instantly ("jdoe", None))
    (fun _ => instantly (infoOf mergingProvider, None))
    (instantly (tt, None)).

(** The same, but no pull request can be created. *)
Definition lockedWorld : AppWorld :=
  mkWorld (instantly (tt, None)) (instantly (tt, None))
    (instantly (tt, None))
    (instantly (environments, ["dev"; "staging"; "production"], None))
    (instantly ("jdoe", None))
    (fun _ => instantly (None, Some "403 Forbidden"))
    (instantly (tt, None)).

Definition jobs : list Job :=
  [mkJob "acme/cheese" true; mkJob "acme/nightly" false;
   mkJob "acme/wine" true].

Definition runWorld (confirmed : bool) : RunWorld :=
  mkRunWorld (instantly (tt, None)) (instantly (jobs, None))
    (instantly (["acme/wine"], None)) (instantly confirmed)
    (fun _ => calmWorld).

(** [jx delete app acme/cheese --timeout 40s --pull-request-poll-time 20s] *)
Definition flags : RunFlags := mkFlags ["acme/cheese"] "20s" "40s".

(** The durations the examples use, as [time.ParseDuration] reads them. *)
Definition parseSeconds (s : string) : Z + string :=
  if String.eqb s "20s" then inl (20 * second)
  else if String.eqb s "40s" then inl (40 * second)
  else inr ("time: invalid duration " ++ s).

(** The position of the first occurrence, or -1. *)
Fixpoint indexOf (names : list string) (name : string) : Z :=
  match names with
  | [] => (-1)%Z
  | n :: rest =>
      if String.eqb n name then 0%Z
      else
        let i := indexOf rest name in
        if (i <? 0)%Z then (-1)%Z else (i + 1)%Z
  end.

Definition merging : ReleasePullRequestInfo := mkInfo mergingProvider openPR.
Definition pending : ReleasePullRequestInfo := mkInfo pendingProvider openPR.

(** Options on which no duration has been set yet. *)
Definition fresh : DeleteAppOptions := mkOptions false None None.

(** The locals on entry to the loop, and a deadline 40s after time 0. *)
Definition start : Locals := mkLocals openPR false.
Definition deadline : Z := 40 * second.

(** The three ways the loop ends according to the specification: merged,
    closed without merging, timed out. *)
Definition specTerminal (r : Res Locals) : Prop :=
  r = Return None
  \/ (exists u, r = Return (Some (ErrClosed u)))
  \/ (exists u d, r = Return (Some (ErrTimedOut u d))).

End Examples.

(** Running every call of one iteration, whatever the replies are: the
    innermost undecided test is split first. *)
Ltac run_tick :=
  unfold tick, tryMerge, endOfTick, bind, UpdatePullRequestStatus,
    PullRequestLastCommitStatus, MergePullRequest, call, Printf, warnf, emit,
    Now, Sleep, return_, panic, pure;
  repeat match goal with
         | |- context [match ?x with _ => _ end] =>
             lazymatch x with
             | context [match _ with _ => _ end] => fail
             | _ => destruct x eqn:?
             end;
             cbn [fst snd events clockAfter result app ticks mergeCalls negb]
         end.

(** ** Equations of the monad and of one iteration *)

Lemma prefixed_nil {A : Type} (x : list Event * Z * Res A) :
  prefixed [] x = x.
Proof. destruct x as [[e c] r]. reflexivity. Qed.

Lemma prefixed_app {A : Type} (e1 e2 : list Event)
    (x : list Event * Z * Res A) :
  prefixed e1 (prefixed e2 x) = prefixed (e1 ++ e2) x.
Proof. destruct x as [[e c] r]. cbn. now rewrite app_assoc. Qed.

Lemma events_prefixed {A : Type} (e1 : list Event)
    (x : list Event * Z * Res A) :
  events (prefixed e1 x) = e1 ++ events x.
Proof. destruct x as [[e c] r]. reflexivity. Qed.

Lemma result_prefixed {A : Type} (e1 : list Event)
    (x : list Event * Z * Res A) :
  result (prefixed e1 x) = result x.
Proof. destruct x as [[e c] r]. reflexivity. Qed.

Lemma clockAfter_prefixed {A : Type} (e1 : list Event)
    (x : list Event * Z * Res A) :
  clockAfter (prefixed e1 x) = clockAfter x.
Proof. destruct x as [[e c] r]. reflexivity. Qed.

Lemma bind_Val {A B : Type} (m : M A) (k : A -> M B) c e1 c1 a :
  m c = (e1, c1, Val a) -> bind m k c = prefixed e1 (k a c1).
Proof. intros H. unfold bind. rewrite H. reflexivity. Qed.

Lemma bind_Return {A B : Type} (m : M A) (k : A -> M B) c e1 c1 err :
  m c = (e1, c1, Return err) -> bind m k c = (e1, c1, Return err).
Proof. intros H. unfold bind. rewrite H. reflexivity. Qed.

Lemma bind_Panic {A B : Type} (m : M A) (k : A -> M B) c e1 c1 :
  m c = (e1, c1, Panic) -> bind m k c = (e1, c1, Panic).
Proof. intros H. unfold bind. rewrite H. reflexivity. Qed.

Lemma bind_prefixed {A B : Type} (m : M A) (k : A -> M B) c evs x :
  m c = prefixed evs x ->
  bind m k c = prefixed evs (bind (fun _ => x) k c).
Proof.
  intros H. unfold bind. rewrite H.
  destruct x as [[e c1] [a | err | ]]; cbn; try reflexivity.
  destruct (k a c1) as [[e2 c2] r]. cbn. now rewrite app_assoc.
Qed.

Lemma ticks_app a b : ticks (a ++ b) = (ticks a + ticks b)%nat.
Proof.
  induction a as [ | e a IH]; [ reflexivity | ].
  destruct e; cbn; rewrite IH; reflexivity.
Qed.

Lemma mergeCalls_app a b : mergeCalls (a ++ b) = mergeCalls a ++ mergeCalls b.
Proof.
  induction a as [ | e a IH]; [ reflexivity | ].
  destruct e; cbn; rewrite IH; reflexivity.
Qed.

Lemma nowReadings_app a b :
  nowReadings (a ++ b) = nowReadings a ++ nowReadings b.
Proof.
  induction a as [ | e a IH]; [ reflexivity | ].
  destruct e; cbn; rewrite IH; reflexivity.
Qed.

Lemma warnings_app a b : warnings (a ++ b) = warnings a ++ warnings b.
Proof.
  induction a as [ | e a IH]; [ reflexivity | ].
  destruct e; cbn; rewrite IH; reflexivity.
Qed.

Section Properties.

Variable ColorInfo : string -> string.

Lemma pollLoop_S fuel o g end_ duration n l c :
  pollLoop ColorInfo (S fuel) o g end_ duration n l c
  = bind (tick ColorInfo o g end_ duration n l)
         (fun l' => pollLoop ColorInfo fuel o g end_ duration (S n) l') c.
Proof. reflexivity. Qed.

(** A failed refresh returns from the iteration. *)
Lemma tick_query_error o g end_ duration n l c p err :
  answer (update (g n)) = (p, Some err) ->
  tick ColorInfo o g end_ duration n l c
  = ([EvUpdatePullRequestStatus n], c + elapsed (update (g n)),
     Return (Some (ErrQueryStatus (URL p) err))).
Proof.
  intros H. unfold tick, bind, UpdatePullRequestStatus, call.
  rewrite H. reflexivity.
Qed.

(** A merged pull request returns [nil], whatever [IsClosed] says. *)
Lemma tick_merged o g end_ duration n l c p :
  answer (update (g n)) = (p, None) ->
  isMerged p = true ->
  tick ColorInfo o g end_ duration n l c
  = ([EvUpdatePullRequestStatus n; EvPrintf (msgMerged ColorInfo (URL p))],
     c + elapsed (update (g n)), Return None).
Proof.
  intros H Hm. unfold tick, bind, UpdatePullRequestStatus, call.
  rewrite H, Hm. reflexivity.
Qed.

(** A pull request closed but not merged returns the closed error. *)
Lemma tick_closed o g end_ duration n l c p :
  answer (update (g n)) = (p, None) ->
  isMerged p = false ->
  IsClosed p = true ->
  tick ColorInfo o g end_ duration n l c
  = ([EvUpdatePullRequestStatus n; EvWarnf (msgClosed ColorInfo (URL p))],
     c + elapsed (update (g n)), Return (Some (ErrClosed (URL p)))).
Proof.
  intros H Hm Hc.
  unfold tick, bind, UpdatePullRequestStatus, call.
  rewrite H, Hm, Hc. reflexivity.
Qed.

(** On an open pull request the iteration is the merge decision followed by
    the deadline check. *)
Lemma tick_open o g end_ duration n l c p :
  answer (update (g n)) = (p, None) ->
  isMerged p = false ->
  IsClosed p = false ->
  tick ColorInfo o g end_ duration n l c
  = prefixed [EvUpdatePullRequestStatus n]
      (bind (tryMerge o g n p (logMergeFailure l))
            (endOfTick o end_ duration p) (c + elapsed (update (g n)))).
Proof.
  intros H Hm Hc.
  unfold tick, UpdatePullRequestStatus.
  erewrite bind_Val by reflexivity.
  rewrite H, Hm, Hc. reflexivity.
Qed.

(** The deadline check, case by case. *)
Lemma endOfTick_late o end_ duration p lmf c :
  end_ < c ->
  endOfTick o end_ duration p lmf c
  = ([EvNow c], c, Return (Some (ErrTimedOut (URL p) duration))).
Proof.
  intros H. unfold endOfTick, bind, Now.
  apply Z.ltb_lt in H. rewrite H. reflexivity.
Qed.

Lemma endOfTick_sleep o end_ duration p lmf c d :
  c <= end_ ->
  PullRequestPollDuration o = Some d ->
  endOfTick o end_ duration p lmf c
  = ([EvNow c; EvSleep d], c + Z.max 0 d, Val (mkLocals p lmf)).
Proof.
  intros H Hd. unfold endOfTick, bind, Now.
  apply Z.ltb_ge in H. rewrite H, Hd. reflexivity.
Qed.

Lemma endOfTick_nil_poll_time o end_ duration p lmf c :
  c <= end_ ->
  PullRequestPollDuration o = None ->
  endOfTick o end_ duration p lmf c = ([EvNow c], c, Panic).
Proof.
  intros H Hd. unfold endOfTick, bind, Now.
  apply Z.ltb_ge in H. rewrite H, Hd. reflexivity.
Qed.

(** The merge decision, case by case. *)
Lemma tryMerge_query_error o g n p lmf c status err :
  answer (lastCommitStatus (g n)) = (status, Some err) ->
  tryMerge o g n p lmf c
  = ([EvPullRequestLastCommitStatus n;
      EvWarnf (msgStatusQueryFailed (URL p) (LastCommitSha p) err)],
     c + elapsed (lastCommitStatus (g n)), Val lmf).
Proof.
  intros H. unfold tryMerge, bind, PullRequestLastCommitStatus, call.
  rewrite H. reflexivity.
Qed.

Lemma tryMerge_bad_status o g n p lmf c status :
  answer (lastCommitStatus (g n)) = (status, None) ->
  status = "failure"%string \/ status = "error"%string ->
  tryMerge o g n p lmf c
  = ([EvPullRequestLastCommitStatus n],
     c + elapsed (lastCommitStatus (g n)),
     Return (Some (ErrCommitStatus (URL p) status (LastCommitSha p)))).
Proof.
  intros H Hs. unfold tryMerge, bind, PullRequestLastCommitStatus, call.
  rewrite H. destruct Hs; subst status; reflexivity.
Qed.

Lemma tryMerge_merge_failed o g n p lmf c err :
  answer (lastCommitStatus (g n)) = ("success"%string, None) ->
  NoMergePullRequest o = false ->
  answer (merge (g n)) = Some err ->
  tryMerge o g n p lmf c
  = ([EvPullRequestLastCommitStatus n; EvMergePullRequest n mergeMessage]
       ++ (if lmf then [] else [EvWarnf (msgMergeFailed (URL p) err)]),
     c + elapsed (lastCommitStatus (g n)) + elapsed (merge (g n)),
     Val true).
Proof.
  intros H Ho Hm.
  unfold tryMerge, bind, PullRequestLastCommitStatus, MergePullRequest, call.
  rewrite H, Ho. cbn. rewrite Hm. destruct lmf; reflexivity.
Qed.

(** The clock never runs backwards during an iteration; an iteration that
    goes on to the next one has seen the deadline not yet passed, and has
    slept. *)
Lemma tick_clock o g end_ duration n l c :
  c <= clockAfter (tick ColorInfo o g end_ duration n l c).
Proof.
  assert (Hu := N2Z.is_nonneg (took (update (g n)))).
  assert (Hs := N2Z.is_nonneg (took (lastCommitStatus (g n)))).
  assert (Hm := N2Z.is_nonneg (took (merge (g n)))).
  run_tick; unfold elapsed in *; lia.
Qed.

Lemma tick_continues o g end_ duration n l c l' :
  result (tick ColorInfo o g end_ duration n l c) = Val l' ->
  c <= end_ /\
  exists d, PullRequestPollDuration o = Some d /\
            c + Z.max 0 d <= clockAfter (tick ColorInfo o g end_ duration n l c).
Proof.
  assert (Hu := N2Z.is_nonneg (took (update (g n)))).
  assert (Hs := N2Z.is_nonneg (took (lastCommitStatus (g n)))).
  assert (Hm := N2Z.is_nonneg (took (merge (g n)))).
  run_tick; intros H; try discriminate H;
    (split; [ | eexists; split; [ reflexivity | ] ]);
    repeat match goal with
           | E : (_ <? _) = false |- _ => apply Z.ltb_ge in E
           end; unfold elapsed in *; lia.
Qed.

(** Every iteration makes exactly one status refresh. *)
Lemma tick_ticks o g end_ duration n l c :
  ticks (events (tick ColorInfo o g end_ duration n l c)) = 1%nat.
Proof. run_tick; reflexivity. Qed.

(** With a poll time set, no nil pointer is dereferenced. *)
Lemma tick_no_panic o g end_ duration n l c d :
  PullRequestPollDuration o = Some d ->
  result (tick ColorInfo o g end_ duration n l c) <> Panic.
Proof. intros Hd. run_tick; congruence. Qed.

(** An iteration returns only for a reason found in its own replies. *)
Lemma tick_justified o g end_ duration n l c err :
  result (tick ColorInfo o g end_ duration n l c) = Return err ->
  justified (g n) end_ duration
    (clockAfter (tick ColorInfo o g end_ duration n l c)) err.
Proof.
  unfold justified. run_tick; intros H; inversion H; subst; clear H;
    repeat match goal with
           | E : (_ <? _) = true |- _ => apply Z.ltb_lt in E
           | E : (_ || _) = true |- _ => apply orb_true_iff in E
           | E : String.eqb _ _ = true |- _ => apply String.eqb_eq in E
           end; intuition (subst; auto);
    match goal with
    | E : String.eqb _ _ = true |- _ => apply String.eqb_eq in E; auto
    end.
Qed.

(** [MergePullRequest] is called only when merging is enabled and the
    status of the last commit is [success]. *)
Lemma tick_mergeCalls o g end_ duration n l c m :
  In m (mergeCalls (events (tick ColorInfo o g end_ duration n l c))) ->
  m = n /\ NoMergePullRequest o = false /\
  answer (lastCommitStatus (g n)) = ("success"%string, None).
Proof.
  run_tick; cbn; intros H; try tauto;
    destruct H as [H | []]; subst;
    repeat match goal with
           | E : String.eqb _ _ = true |- _ => apply String.eqb_eq in E
           | E : negb _ = true |- _ => apply negb_true_iff in E
           end; subst; auto.
Qed.

(** The deadline check reads the clock at most once in an iteration; the
    reading is after the deadline exactly when the iteration times out. *)
Lemma tick_readings o g end_ duration n l c :
  let r := tick ColorInfo o g end_ duration n l c in
  match result r with
  | Return (Some (ErrTimedOut _ _)) =>
      nowReadings (events r) = [clockAfter r] /\ end_ < clockAfter r
  | _ => Forall (fun t => t <= end_) (nowReadings (events r))
  end.
Proof.
  cbv zeta. run_tick; cbn;
    repeat match goal with
           | E : (_ <? _) = true |- _ => apply Z.ltb_lt in E
           | E : (_ <? _) = false |- _ => apply Z.ltb_ge in E
           end; auto.
Qed.

(** ** The loop as a whole *)

(** One unfolding of the loop: it ends with the iteration unless the
    iteration asks for the next one. *)
Lemma pollLoop_step fuel o g end_ duration n l c :
  pollLoop ColorInfo (S fuel) o g end_ duration n l c
  = let t := tick ColorInfo o g end_ duration n l c in
    match result t with
    | Val l' =>
        prefixed (events t)
          (pollLoop ColorInfo fuel o g end_ duration (S n) l' (clockAfter t))
    | _ => t
    end.
Proof.
  rewrite pollLoop_S. unfold bind.
  destruct (tick ColorInfo o g end_ duration n l c) as [[e c1] [a | err | ]];
    reflexivity.
Qed.

(** Once the loop has returned, more fuel changes nothing. *)
Lemma pollLoop_more_fuel o g end_ duration k fuel :
  forall n l c err,
    result (pollLoop ColorInfo fuel o g end_ duration n l c) = Return err ->
    pollLoop ColorInfo (fuel + k) o g end_ duration n l c
    = pollLoop ColorInfo fuel o g end_ duration n l c.
Proof.
  induction fuel as [ | fuel IH]; intros n l c err H.
  - discriminate H.
  - change (S fuel + k)%nat with (S (fuel + k)).
    rewrite pollLoop_step in H |- *. rewrite pollLoop_step. cbv zeta in *.
    destruct (result (tick ColorInfo o g end_ duration n l c)) as [l' | e | ];
      try reflexivity.
    rewrite result_prefixed in H. now rewrite (IH _ _ _ _ H).
Qed.

(** With a positive poll time the loop returns: every iteration that goes
    on has slept that long, and none goes on after the deadline. *)
Lemma pollLoop_returns o g end_ duration d :
  PullRequestPollDuration o = Some d ->
  0 < d ->
  forall fuel n l c,
    end_ - c < Z.of_nat fuel * d ->
    exists err,
      result (pollLoop ColorInfo (S fuel) o g end_ duration n l c)
      = Return err.
Proof.
  intros Hd Hpos. induction fuel as [ | fuel IH]; intros n l c Hc;
    rewrite pollLoop_step; cbv zeta;
    destruct (result (tick ColorInfo o g end_ duration n l c))
      as [l' | e | ] eqn:Ht.
  - apply tick_continues in Ht. lia.
  - rewrite Ht. eauto.
  - now apply (tick_no_panic _ _ _ _ _ _ _ _ Hd) in Ht.
  - rewrite result_prefixed. apply IH.
    apply tick_continues in Ht. destruct Ht as [_ [d' [Hd' Hclock]]].
    rewrite Hd in Hd'. injection Hd' as <-. nia.
  - rewrite Ht. eauto.
  - now apply (tick_no_panic _ _ _ _ _ _ _ _ Hd) in Ht.
Qed.

(** The loop starts no more iterations than it has fuel. *)
Lemma pollLoop_ticks o g end_ duration fuel :
  forall n l c,
    (ticks (events (pollLoop ColorInfo fuel o g end_ duration n l c))
     <= fuel)%nat.
Proof.
  induction fuel as [ | fuel IH]; intros n l c; [ cbn; lia | ].
  rewrite pollLoop_step. cbv zeta.
  assert (H1 := tick_ticks o g end_ duration n l c).
  destruct (result (tick ColorInfo o g end_ duration n l c)) as [l' | e | ].
  - rewrite events_prefixed, ticks_app, H1. specialize (IH (S n) l'
      (clockAfter (tick ColorInfo o g end_ duration n l c))). lia.
  - lia.
  - lia.
Qed.

(** The value the loop returns is justified by the replies of the last
    iteration it started. *)
Lemma pollLoop_justified o g end_ duration fuel :
  forall n l c err,
    let r := pollLoop ColorInfo fuel o g end_ duration n l c in
    result r = Return err ->
    exists k, ticks (events r) = S k /\
              justified (g (n + k)%nat) end_ duration (clockAfter r) err.
Proof.
  induction fuel as [ | fuel IH]; intros n l c err r H; [ discriminate H | ].
  subst r. rewrite pollLoop_step in H |- *. cbv zeta in *.
  assert (H1 := tick_ticks o g end_ duration n l c).
  destruct (result (tick ColorInfo o g end_ duration n l c))
    as [l' | e | ] eqn:Ht.
  - rewrite result_prefixed in H. destruct (IH _ _ _ _ H) as [k [Hk Hj]].
    exists (S k). rewrite events_prefixed, ticks_app, H1, Hk.
    rewrite clockAfter_prefixed. split; [ reflexivity | ].
    now replace (n + S k)%nat with (S n + k)%nat by lia.
  - exists 0%nat. split; [ exact H1 | ].
    rewrite Nat.add_0_r. rewrite Ht in H. injection H as ->.
    now apply tick_justified.
  - rewrite Ht in H. discriminate H.
Qed.

Lemma pollLoop_mergeCalls o g end_ duration fuel :
  forall n l c m,
    In m (mergeCalls
            (events (pollLoop ColorInfo fuel o g end_ duration n l c))) ->
    NoMergePullRequest o = false /\
    answer (lastCommitStatus (g m)) = ("success"%string, None).
Proof.
  induction fuel as [ | fuel IH]; intros n l c m H; [ destruct H | ].
  rewrite pollLoop_step in H. cbv zeta in H.
  destruct (result (tick ColorInfo o g end_ duration n l c)) as [l' | e | ].
  - rewrite events_prefixed, mergeCalls_app in H.
    apply in_app_or in H. destruct H as [H | H].
    + apply tick_mergeCalls in H. destruct H as [-> H]. exact H.
    + exact (IH _ _ _ _ H).
  - apply tick_mergeCalls in H. destruct H as [-> H]. exact H.
  - apply tick_mergeCalls in H. destruct H as [-> H]. exact H.
Qed.

(** Every clock reading but the one of a timed-out return is at or before
    the deadline. *)
Lemma pollLoop_readings o g end_ duration fuel :
  forall n l c,
    let r := pollLoop ColorInfo fuel o g end_ duration n l c in
    match result r with
    | Return (Some (ErrTimedOut _ _)) =>
        exists ts, nowReadings (events r) = ts ++ [clockAfter r] /\
                   end_ < clockAfter r /\
                   Forall (fun t => t <= end_) ts
    | _ => Forall (fun t => t <= end_) (nowReadings (events r))
    end.
Proof.
  induction fuel as [ | fuel IH]; intros n l c; [ constructor | ].
  cbv zeta. rewrite pollLoop_step. cbv zeta.
  assert (Ht := tick_readings o g end_ duration n l c). cbv zeta in Ht.
  destruct (result (tick ColorInfo o g end_ duration n l c))
    as [l' | e | ] eqn:Hr.
  - specialize (IH (S n) l'
      (clockAfter (tick ColorInfo o g end_ duration n l c))).
    cbv zeta in IH.
    rewrite result_prefixed, events_prefixed, clockAfter_prefixed,
      nowReadings_app.
    destruct (result (pollLoop ColorInfo fuel o g end_ duration (S n) l'
                (clockAfter (tick ColorInfo o g end_ duration n l c))))
      as [l2 | [[ | | | ] | ] | ]; try (apply Forall_app; split; assumption).
    destruct IH as [ts [E [Hlate Hts]]].
    exists (nowReadings (events (tick ColorInfo o g end_ duration n l c))
            ++ ts).
    rewrite E, app_assoc. repeat split; [ assumption | ].
    apply Forall_app; split; assumption.
  - rewrite Hr. destruct e as [[ | | | ] | ]; try assumption.
    exists []. destruct Ht as [E Hlate]. repeat split; auto.
  - rewrite Hr. assumption.
Qed.

Lemma pollLoop_Return fuel o g end_ duration n l c evs c' err :
  tick ColorInfo o g end_ duration n l c = (evs, c', Return err) ->
  pollLoop ColorInfo (S fuel) o g end_ duration n l c = (evs, c', Return err).
Proof. intros H. rewrite pollLoop_S. now apply bind_Return. Qed.

Lemma pollLoop_prefixed fuel o g end_ duration n l c evs (m : M Locals) c1 :
  tick ColorInfo o g end_ duration n l c = prefixed evs (m c1) ->
  pollLoop ColorInfo (S fuel) o g end_ duration n l c
  = prefixed evs
      (bind m (fun l' => pollLoop ColorInfo fuel o g end_ duration (S n) l')
         c1).
Proof.
  intros H. rewrite pollLoop_S. rewrite (bind_prefixed _ _ _ _ _ H).
  reflexivity.
Qed.

(** An iteration on an open pull request whose last commit is green, with
    merging enabled, calls [MergePullRequest] once, whatever the call
    answers. *)
Lemma tick_green_mergeCalls o g end_ duration n l c p :
  answer (update (g n)) = (p, None) ->
  isMerged p = false ->
  IsClosed p = false ->
  answer (lastCommitStatus (g n)) = ("success"%string, None) ->
  NoMergePullRequest o = false ->
  mergeCalls (events (tick ColorInfo o g end_ duration n l c)) = [n].
Proof.
  intros H Hm Hc Hs Ho. rewrite (tick_open _ _ _ _ _ _ _ _ H Hm Hc).
  unfold tryMerge, endOfTick, bind, PullRequestLastCommitStatus,
    MergePullRequest, call, warnf, emit, Now, Sleep, return_, panic, pure.
  rewrite Hs, Ho. cbn.
  destruct (answer (merge (g n))), (logMergeFailure l); cbn;
    match goal with
    | |- context [?a <? ?b] => destruct (a <? b)
    end; cbn; try reflexivity;
    destruct (PullRequestPollDuration o); reflexivity.
Qed.

(** The call of [waitForGitOpsPullRequest] on a pull request is the
    announcement followed by the loop. *)
Lemma waitFor_Some fuel o info end_ duration c :
  waitForGitOpsPullRequest ColorInfo fuel o (Some info) end_ duration c
  = prefixed [EvPrintf (msgWaiting (URL (PullRequest info)))]
      (pollLoop ColorInfo fuel o (GitProvider info) end_ duration 0
         (mkLocals (PullRequest info) false) c).
Proof.
  unfold waitForGitOpsPullRequest, Printf, emit, bind, prefixed.
  destruct (pollLoop ColorInfo fuel o (GitProvider info) end_ duration 0
              (mkLocals (PullRequest info) false) c) as [[e c1] r].
  reflexivity.
Qed.

Lemma deleteApp_wait_Some fuel o info timeout c :
  TimeoutDuration o = Some timeout ->
  deleteAppFromEnvironment_wait ColorInfo fuel o (Some info) c
  = prefixed [EvNow c; EvPrintf (msgWaiting (URL (PullRequest info)))]
      (pollLoop ColorInfo fuel o (GitProvider info) (c + timeout) timeout 0
         (mkLocals (PullRequest info) false) c).
Proof.
  intros Ht. unfold deleteAppFromEnvironment_wait. rewrite Ht.
  unfold bind at 1. unfold Now. rewrite waitFor_Some.
  destruct (pollLoop ColorInfo fuel o (GitProvider info) (c + timeout) timeout
              0 (mkLocals (PullRequest info) false) c) as [[e c1] r].
  reflexivity.
Qed.

(** Every iteration, and so every run of the loop, starts with the status
    refresh. *)
Lemma tick_starts_with_update o g end_ duration n l c :
  exists rest,
    events (tick ColorInfo o g end_ duration n l c)
    = EvUpdatePullRequestStatus n :: rest.
Proof. run_tick; eauto. Qed.

Lemma pollLoop_starts_with_update fuel o g end_ duration n l c :
  exists rest,
    events (pollLoop ColorInfo (S fuel) o g end_ duration n l c)
    = EvUpdatePullRequestStatus n :: rest.
Proof.
  rewrite pollLoop_step. cbv zeta.
  destruct (tick_starts_with_update o g end_ duration n l c) as [rest E].
  destruct (result (tick ColorInfo o g end_ duration n l c)); eauto.
  rewrite events_prefixed, E. cbn. eauto.
Qed.

(** An iteration in which the merge is refused: everything up to the
    deadline check. *)
Lemma tick_merge_failed o g end_ duration n l c p err :
  answer (update (g n)) = (p, None) ->
  isMerged p = false ->
  IsClosed p = false ->
  answer (lastCommitStatus (g n)) = ("success"%string, None) ->
  NoMergePullRequest o = false ->
  answer (merge (g n)) = Some err ->
  tick ColorInfo o g end_ duration n l c
  = prefixed
      ([EvUpdatePullRequestStatus n; EvPullRequestLastCommitStatus n;
        EvMergePullRequest n mergeMessage]
         ++ (if logMergeFailure l then []
             else [EvWarnf (msgMergeFailed (URL p) err)]))
      (endOfTick o end_ duration p true
         (c + elapsed (update (g n)) + elapsed (lastCommitStatus (g n))
            + elapsed (merge (g n)))).
Proof.
  intros H Hm Hc Hs Ho He. rewrite (tick_open _ _ _ _ _ _ _ _ H Hm Hc).
  erewrite bind_Val by (eapply tryMerge_merge_failed; eassumption).
  rewrite prefixed_app. reflexivity.
Qed.

(** The fuel that lets the loop run until a deadline [x] away, when every
    iteration sleeps [d]. *)
Lemma enough_fuel x d :
  0 < d -> x < Z.of_nat (Z.to_nat (x / d + 1)) * d.
Proof.
  intros Hd. assert (H := Z.mul_succ_div_gt x d Hd).
  destruct (Z_lt_le_dec (x / d + 1) 0) as [Hneg | Hpos].
  - replace (Z.to_nat (x / d + 1)) with 0%nat by lia.
    assert (0 <= x -> 0 <= x / d) by (intros; apply Z.div_pos; lia). lia.
  - rewrite Z2Nat.id by lia. lia.
Qed.

(** ** The claims about the loop *)

(** C1 (as the code has it): in an iteration in which the pull request is
    still open and the status query of the last commit succeeds with
    [failure] or [error], the loop returns in that very iteration, with the
    error that names the URL, the status and the commit; it does not merge,
    does not check the deadline and does not sleep. *)
Theorem commit_status_failure_returns fuel o g end_ duration n l c p status :
  answer (update (g n)) = (p, None) ->
  isMerged p = false ->
  IsClosed p = false ->
  answer (lastCommitStatus (g n)) = (status, None) ->
  status = "failure"%string \/ status = "error"%string ->
  pollLoop ColorInfo (S fuel) o g end_ duration n l c
  = ([EvUpdatePullRequestStatus n; EvPullRequestLastCommitStatus n],
     c + elapsed (update (g n)) + elapsed (lastCommitStatus (g n)),
     Return (Some (ErrCommitStatus (URL p) status (LastCommitSha p)))).
Proof.
  intros H Hm Hc Hs Hbad. apply pollLoop_Return.
  rewrite (tick_open _ _ _ _ _ _ _ _ H Hm Hc).
  erewrite bind_Return by (eapply tryMerge_bad_status; eassumption).
  reflexivity.
Qed.

(** C2 (as the code has it): in an iteration in which
    [UpdatePullRequestStatus] fails, the loop returns at once with the
    error that names the URL and the provider's error; nothing else is
    called or logged. *)
Theorem update_error_returns fuel o g end_ duration n l c p err :
  answer (update (g n)) = (p, Some err) ->
  pollLoop ColorInfo (S fuel) o g end_ duration n l c
  = ([EvUpdatePullRequestStatus n], c + elapsed (update (g n)),
     Return (Some (ErrQueryStatus (URL p) err))).
Proof.
  intros H. apply pollLoop_Return. now apply tick_query_error.
Qed.

(** C5: in an iteration whose refresh reports the pull request both merged
    and closed, the loop returns [nil] (merged), not the closed error. *)
Theorem merged_wins_over_closed fuel o g end_ duration n l c p :
  answer (update (g n)) = (p, None) ->
  Merged p = Some true ->
  IsClosed p = true ->
  pollLoop ColorInfo (S fuel) o g end_ duration n l c
  = ([EvUpdatePullRequestStatus n; EvPrintf (msgMerged ColorInfo (URL p))],
     c + elapsed (update (g n)), Return None).
Proof.
  intros H Hm _. apply pollLoop_Return. apply tick_merged; [ exact H | ].
  unfold isMerged. now rewrite Hm.
Qed.

(** C8: in an iteration whose refresh reports the pull request closed and
    not merged, the loop returns at once with an error whose text contains
    the URL of the pull request; after the refresh it only logs a warning:
    no status query, no merge, no sleep, no further iteration. *)
Theorem closed_unmerged_fails_with_url (DurationString : Z -> string)
    fuel o g end_ duration n l c p :
  answer (update (g n)) = (p, None) ->
  isMerged p = false ->
  IsClosed p = true ->
  pollLoop ColorInfo (S fuel) o g end_ duration n l c
  = ([EvUpdatePullRequestStatus n; EvWarnf (msgClosed ColorInfo (URL p))],
     c + elapsed (update (g n)), Return (Some (ErrClosed (URL p))))
  /\ Contains (Error DurationString (ErrClosed (URL p))) (URL p).
Proof.
  intros H Hm Hc. split.
  - apply pollLoop_Return. now apply tick_closed.
  - exists "Promotion failed as Pull Request "%string,
           " is closed without merging"%string.
    reflexivity.
Qed.

(** C9: in an iteration in which the pull request is open and
    [PullRequestLastCommitStatus] fails, the loop logs a warning, makes no
    merge decision, and goes on with the deadline check and, from there,
    with the next iteration: when the deadline has not passed (and a poll
    time is set) it sleeps and refreshes the status again. *)
Theorem status_query_error_swallowed fuel o g end_ duration n l c p
    status err :
  answer (update (g n)) = (p, None) ->
  isMerged p = false ->
  IsClosed p = false ->
  answer (lastCommitStatus (g n)) = (status, Some err) ->
  let c' := c + elapsed (update (g n)) + elapsed (lastCommitStatus (g n)) in
  let seen :=
    [EvUpdatePullRequestStatus n; EvPullRequestLastCommitStatus n;
     EvWarnf (msgStatusQueryFailed (URL p) (LastCommitSha p) err)] in
  pollLoop ColorInfo (S fuel) o g end_ duration n l c
  = prefixed seen
      (bind (endOfTick o end_ duration p (logMergeFailure l))
            (fun l' => pollLoop ColorInfo fuel o g end_ duration (S n) l') c')
  /\
  (forall d,
     c' <= end_ ->
     PullRequestPollDuration o = Some d ->
     exists rest,
       events (pollLoop ColorInfo (S (S fuel)) o g end_ duration n l c)
       = seen ++ [EvNow c'; EvSleep d; EvUpdatePullRequestStatus (S n)]
           ++ rest).
Proof.
  intros H Hm Hc Hs c' seen.
  assert (E : forall f,
             pollLoop ColorInfo (S f) o g end_ duration n l c
             = prefixed seen
                 (bind (endOfTick o end_ duration p (logMergeFailure l))
                    (fun l' =>
                       pollLoop ColorInfo f o g end_ duration (S n) l') c')).
  { intros f. apply pollLoop_prefixed.
    rewrite (tick_open _ _ _ _ _ _ _ _ H Hm Hc).
    erewrite bind_Val by (eapply tryMerge_query_error; eassumption).
    rewrite prefixed_app. reflexivity. }
  split; [ apply E | ].
  intros d Hc' Hd. rewrite E, events_prefixed.
  erewrite bind_Val by (apply endOfTick_sleep; eassumption).
  rewrite events_prefixed.
  destruct (pollLoop_starts_with_update fuel o g end_ duration (S n)
              (mkLocals p (logMergeFailure l)) (c' + Z.max 0 d))
    as [rest Er].
  rewrite Er. exists rest. reflexivity.
Qed.

(** C10: the deadline is looked at only at the end of an iteration.  So
    every call on a pull request, whatever the deadline and the clock,
    starts with a status refresh, and when that first refresh reports the
    pull request merged the call returns [nil], not the timeout. *)
Theorem first_refresh_precedes_deadline fuel o info end_ duration c :
  (exists rest,
      events (waitForGitOpsPullRequest ColorInfo (S fuel) o (Some info)
                end_ duration c)
      = EvPrintf (msgWaiting (URL (PullRequest info)))
          :: EvUpdatePullRequestStatus 0 :: rest)
  /\
  (forall p,
      answer (update (GitProvider info 0)) = (p, None) ->
      isMerged p = true ->
      waitForGitOpsPullRequest ColorInfo (S fuel) o (Some info)
        end_ duration c
      = ([EvPrintf (msgWaiting (URL (PullRequest info)));
          EvUpdatePullRequestStatus 0;
          EvPrintf (msgMerged ColorInfo (URL p))],
         c + elapsed (update (GitProvider info 0)), Return None)).
Proof.
  split.
  - rewrite waitFor_Some, events_prefixed.
    destruct (pollLoop_starts_with_update fuel o (GitProvider info) end_
                duration 0 (mkLocals (PullRequest info) false) c)
      as [rest E].
    rewrite E. exists rest. reflexivity.
  - intros p H Hm. rewrite waitFor_Some.
    rewrite (pollLoop_Return _ _ _ _ _ _ _ _ _ _ _
               (tick_merged _ _ _ _ _ _ _ _ H Hm)).
    reflexivity.
Qed.

(** C7: [MergePullRequest] is never called when [NoMergePullRequest] is
    set; and when it is called in some iteration, the status query of that
    iteration succeeded with exactly [success]. *)
Theorem merge_only_when_enabled_and_green fuel o pullRequestInfo end_
    duration c :
  let evs :=
    events (waitForGitOpsPullRequest ColorInfo fuel o pullRequestInfo
              end_ duration c) in
  (NoMergePullRequest o = true -> mergeCalls evs = [])
  /\
  (forall n, In n (mergeCalls evs) ->
     exists info, pullRequestInfo = Some info /\
       answer (lastCommitStatus (GitProvider info n))
       = ("success"%string, None)).
Proof.
  cbv zeta. destruct pullRequestInfo as [info | ].
  - rewrite waitFor_Some, events_prefixed, mergeCalls_app. cbn [mergeCalls app].
    split.
    + intros Ho.
      destruct (mergeCalls _) as [ | m ms] eqn:E; [ reflexivity | ].
      assert (Hin : In m (m :: ms)) by (left; reflexivity).
      rewrite <- E in Hin. apply pollLoop_mergeCalls in Hin.
      destruct Hin as [Hoff _]. congruence.
    + intros n Hin. exists info. split; [ reflexivity | ].
      apply pollLoop_mergeCalls in Hin. tauto.
  - cbn. split; [ reflexivity | intros n [] ].
Qed.

(** C4 (as the code has it): in an iteration in which the status is
    [success], merging is enabled and [MergePullRequest] fails, the failure
    is logged only if no earlier merge failure was, and the loop goes on
    with the deadline check.  When the deadline has not passed and a poll
    time is set, the next iteration, if the pull request is still open and
    its status [success], calls [MergePullRequest] again. *)
Theorem merge_failure_goes_on fuel o g end_ duration n l c p err :
  answer (update (g n)) = (p, None) ->
  isMerged p = false ->
  IsClosed p = false ->
  answer (lastCommitStatus (g n)) = ("success"%string, None) ->
  NoMergePullRequest o = false ->
  answer (merge (g n)) = Some err ->
  let c' := c + elapsed (update (g n)) + elapsed (lastCommitStatus (g n))
              + elapsed (merge (g n)) in
  pollLoop ColorInfo (S fuel) o g end_ duration n l c
  = prefixed
      ([EvUpdatePullRequestStatus n; EvPullRequestLastCommitStatus n;
        EvMergePullRequest n mergeMessage]
         ++ (if logMergeFailure l then []
             else [EvWarnf (msgMergeFailed (URL p) err)]))
      (bind (endOfTick o end_ duration p true)
            (fun l' => pollLoop ColorInfo fuel o g end_ duration (S n) l') c')
  /\
  (forall d p',
     c' <= end_ ->
     PullRequestPollDuration o = Some d ->
     answer (update (g (S n))) = (p', None) ->
     isMerged p' = false ->
     IsClosed p' = false ->
     answer (lastCommitStatus (g (S n))) = ("success"%string, None) ->
     exists rest,
       mergeCalls
         (events (pollLoop ColorInfo (S (S fuel)) o g end_ duration n l c))
       = n :: S n :: rest).
Proof.
  intros H Hm Hc Hs Ho He c'.
  assert (Et := tick_merge_failed o g end_ duration n l c p err
                  H Hm Hc Hs Ho He).
  fold c' in Et. split.
  - now apply pollLoop_prefixed.
  - intros d p' Hc' Hd H' Hm' Hcl' Hs'.
    rewrite (endOfTick_sleep _ _ _ _ _ _ _ Hc' Hd) in Et.
    assert (Er : result (tick ColorInfo o g end_ duration n l c)
                 = Val (mkLocals p true)) by (now rewrite Et).
    rewrite pollLoop_step. cbv zeta. rewrite Er.
    rewrite events_prefixed, mergeCalls_app.
    rewrite (tick_green_mergeCalls _ _ _ _ _ _ _ _ H Hm Hc Hs Ho).
    rewrite pollLoop_step. cbv zeta.
    match goal with
    | |- context [result ?t] =>
        assert (Em : mergeCalls (events t) = [S n])
          by (eapply tick_green_mergeCalls; eassumption);
        destruct (result t)
    end.
    + rewrite events_prefixed, mergeCalls_app, Em. cbn. eauto.
    + rewrite Em. cbn. eauto.
    + rewrite Em. cbn. eauto.
Qed.

(** C3 (as the code has it): with a positive poll time, for every provider
    the call returns, and it returns for one of five reasons, each found in
    the replies of the last iteration: merged ([nil]), closed without
    merging, timed out, a failed status refresh, or a last commit with
    status [failure] or [error].  After the return nothing more happens:
    more fuel gives the same trace, clock and value. *)
Theorem poll_terminal_outcomes o info end_ duration c d :
  PullRequestPollDuration o = Some d ->
  0 < d ->
  exists fuel0 err,
    let r := waitForGitOpsPullRequest ColorInfo fuel0 o (Some info)
               end_ duration c in
    result r = Return err
    /\ (forall fuel, (fuel0 <= fuel)%nat ->
          waitForGitOpsPullRequest ColorInfo fuel o (Some info)
            end_ duration c = r)
    /\ exists k, ticks (events r) = S k /\
                 justified (GitProvider info k) end_ duration
                   (clockAfter r) err.
Proof.
  intros Hd Hpos.
  set (f := Z.to_nat ((end_ - c) / d + 1)).
  destruct (pollLoop_returns o (GitProvider info) end_ duration d Hd Hpos f
              0%nat (mkLocals (PullRequest info) false) c
              (enough_fuel _ _ Hpos)) as [err Herr].
  exists (S f), err. cbv zeta. rewrite waitFor_Some.
  rewrite result_prefixed, events_prefixed, clockAfter_prefixed, ticks_app.
  split; [ exact Herr | split ].
  - intros fuel Hle. rewrite waitFor_Some.
    replace fuel with (S f + (fuel - S f))%nat by lia.
    now rewrite (pollLoop_more_fuel _ _ _ _ _ _ _ _ _ _ Herr).
  - apply pollLoop_justified in Herr. exact Herr.
Qed.

(** C6 (as the code has it): let the pull request never be reported merged
    or closed, the poll time be positive and the timeout not negative.
    Then the call returns after at most [timeout / poll time + 2]
    iterations.  It returns the error of a failed refresh or of a red last
    commit, or else the timeout; and it times out at the first deadline
    check whose clock reading is strictly after the start plus the timeout:
    every earlier reading is at or before it. *)
Theorem open_request_times_out o info timeout d c :
  TimeoutDuration o = Some timeout ->
  PullRequestPollDuration o = Some d ->
  0 < d ->
  0 <= timeout ->
  (forall n p e,
      answer (update (GitProvider info n)) = (p, e) ->
      isMerged p = false /\ IsClosed p = false) ->
  exists fuel0 err,
    let r := deleteAppFromEnvironment_wait ColorInfo fuel0 o (Some info) c in
    result r = Return (Some err)
    /\ (forall fuel, (fuel0 <= fuel)%nat ->
          deleteAppFromEnvironment_wait ColorInfo fuel o (Some info) c = r)
    /\ (ticks (events r) <= Z.to_nat (timeout / d) + 2)%nat
    /\ match err with
       | ErrTimedOut _ _ =>
           exists ts, nowReadings (events r) = ts ++ [clockAfter r] /\
                      c + timeout < clockAfter r /\
                      Forall (fun t => t <= c + timeout) ts
       | ErrQueryStatus _ _ => True
       | ErrCommitStatus _ _ _ => True
       | ErrClosed _ => False
       end.
Proof.
  intros Ht Hd Hpos Htime Hopen.
  set (f := Z.to_nat (timeout / d + 1)).
  assert (Hfuel : c + timeout - c < Z.of_nat f * d).
  { replace (c + timeout - c) with timeout by ring.
    now apply enough_fuel. }
  destruct (pollLoop_returns o (GitProvider info) (c + timeout) timeout d
              Hd Hpos f 0%nat (mkLocals (PullRequest info) false) c Hfuel)
    as [err Herr].
  assert (Hj := pollLoop_justified o (GitProvider info) (c + timeout) timeout
                  (S f) _ _ _ _ Herr).
  assert (Hr := pollLoop_readings o (GitProvider info) (c + timeout) timeout
                  (S f) 0%nat (mkLocals (PullRequest info) false) c).
  assert (Hn := pollLoop_ticks o (GitProvider info) (c + timeout) timeout
                  (S f) 0%nat (mkLocals (PullRequest info) false) c).
  cbv zeta in Hj, Hr. rewrite Herr in Hr.
  destruct Hj as [k [_ Hj]]. unfold justified in Hj.
  destruct (answer (update (GitProvider info (0 + k)))) as [p e] eqn:Ep.
  destruct (Hopen _ _ _ Ep) as [Hm Hc].
  destruct err as [err | ]; [ | destruct Hj; congruence ].
  exists (S f), err. cbv zeta.
  rewrite (deleteApp_wait_Some _ _ _ _ _ Ht).
  rewrite result_prefixed, events_prefixed, clockAfter_prefixed, ticks_app,
    nowReadings_app.
  split; [ exact Herr | split; [ | split ] ].
  - intros fuel Hle. rewrite (deleteApp_wait_Some _ _ _ _ _ Ht).
    replace fuel with (S f + (fuel - S f))%nat by lia.
    now rewrite (pollLoop_more_fuel _ _ _ _ _ _ _ _ _ _ Herr).
  - assert (0 <= timeout / d) by (apply Z.div_pos; lia).
    cbn [ticks]. subst f. lia.
  - destruct err as [u m | u | u st sh | u dd]; try exact I.
    + destruct Hj as [_ [_ [Hcl _]]]. congruence.
    + destruct Hr as [ts [E [Hlate Hts]]].
      exists (c :: ts). cbn [nowReadings app]. rewrite E.
      repeat split; [ assumption | ].
      constructor; [ lia | assumption ].
Qed.

End Properties.

(** ** The claims at work on concrete providers *)

Module Runs.

Import Examples.
Local Open Scope string_scope.

Lemma commit_status_failure_returns_witness :
  pollLoop plain 3 opts redProvider deadline deadline 0 start 0
  = ([EvUpdatePullRequestStatus 0; EvPullRequestLastCommitStatus 0],
     0 + elapsed (update (redProvider 0%nat))
       + elapsed (lastCommitStatus (redProvider 0%nat)),
     Return (Some (ErrCommitStatus url "failure" sha))).
Proof.
  apply (commit_status_failure_returns plain 2 opts redProvider deadline
           deadline 0 start 0 openPR "failure");
    [ reflexivity | reflexivity | reflexivity | reflexivity
    | left; reflexivity ].
Defined.

(** C1, as written, fails: with a provider whose build is red in every
    iteration, a timeout of 40s and a poll time of 20s, the call returns
    the commit-status error in the first iteration, without a deadline
    check, and not the timeout. *)
Lemma red_build_ends_polling :
  let r := deleteAppFromEnvironment_wait plain 10 opts (infoOf redProvider) 0
  in
  result r = Return (Some (ErrCommitStatus url "failure" sha))
  /\ ticks (events r) = 1%nat
  /\ nowReadings (events r) = [0]
  /\ ~ (exists u d, result r = Return (Some (ErrTimedOut u d))).
Proof.
  cbv zeta. repeat split.
  intros [u [d H]]. discriminate H.
Qed.

Lemma update_error_returns_witness :
  pollLoop plain 3 opts flakyProvider deadline deadline 0 start 0
  = ([EvUpdatePullRequestStatus 0],
     0 + elapsed (update (flakyProvider 0%nat)),
     Return (Some (ErrQueryStatus url "502 Bad Gateway"))).
Proof.
  apply (update_error_returns plain 2 opts flakyProvider deadline deadline
           0 start 0 openPR "502 Bad Gateway").
  reflexivity.
Defined.

(** C2, as written, fails: the first refresh fails, and the call returns
    then and there, although the next refresh would have found the pull
    request merged. *)
Lemma refresh_error_ends_polling :
  let r := deleteAppFromEnvironment_wait plain 10 opts (infoOf flakyProvider)
             0 in
  r = ([EvNow 0; EvPrintf (msgWaiting url); EvUpdatePullRequestStatus 0], 0,
       Return (Some (ErrQueryStatus url "502 Bad Gateway")))
  /\ answer (update (flakyProvider 1%nat)) = (mergedPR, None).
Proof. split; reflexivity. Qed.

Lemma poll_terminal_outcomes_witness :
  exists fuel0 err,
    let r := waitForGitOpsPullRequest plain fuel0 opts
               (Some (mkInfo pendingProvider openPR)) deadline deadline 0 in
    result r = Return err
    /\ (forall fuel, (fuel0 <= fuel)%nat ->
          waitForGitOpsPullRequest plain fuel opts
            (Some (mkInfo pendingProvider openPR)) deadline deadline 0 = r)
    /\ exists k, ticks (events r) = S k /\
                 justified (pendingProvider k) deadline deadline
                   (clockAfter r) err.
Proof.
  apply (poll_terminal_outcomes plain opts (mkInfo pendingProvider openPR)
           deadline deadline 0 (20 * second));
    [ reflexivity | reflexivity ].
Defined.

(** C3, as written, fails: a failed refresh and a red build each end the
    call with an outcome that is none of merged, closed and timed out. *)
Lemma more_terminal_outcomes :
  ~ specTerminal
      (result (waitForGitOpsPullRequest plain 10 opts (infoOf flakyProvider)
                 deadline deadline 0))
  /\ ~ specTerminal
        (result (waitForGitOpsPullRequest plain 10 opts (infoOf redProvider)
                   deadline deadline 0)).
Proof.
  split; intros [H | [[u H] | [u [d H]]]]; discriminate H.
Qed.

Lemma merge_failure_goes_on_witness :
  exists rest,
    mergeCalls
      (events (pollLoop plain 3 opts refusingProvider deadline deadline 0
                 start 0))
    = 0%nat :: 1%nat :: rest.
Proof.
  destruct (merge_failure_goes_on plain 1 opts refusingProvider deadline
              deadline 0 start 0 openPR "405 Method Not Allowed"
              eq_refl eq_refl eq_refl eq_refl eq_refl eq_refl) as [_ H].
  apply (H (20 * second) openPR);
    [ discriminate | reflexivity | reflexivity | reflexivity | reflexivity
    | reflexivity ].
Defined.

(** C4, as written, fails: the merge is refused in three iterations in a
    row, and only the first refusal is logged. *)
Lemma later_merge_failures_not_logged :
  let r := waitForGitOpsPullRequest plain 3 opts (infoOf refusingProvider)
             deadline deadline 0 in
  mergeCalls (events r) = [0; 1; 2]%nat
  /\ warnings (events r) = [msgMergeFailed url "405 Method Not Allowed"].
Proof. split; reflexivity. Qed.

Lemma merged_wins_over_closed_witness :
  pollLoop plain 3 opts mergedClosedProvider deadline deadline 0 start 0
  = ([EvUpdatePullRequestStatus 0; EvPrintf (msgMerged plain url)],
     0 + elapsed (update (mergedClosedProvider 0%nat)), Return None).
Proof.
  apply (merged_wins_over_closed plain 2 opts mergedClosedProvider deadline
           deadline 0 start 0 mergedClosedPR);
    [ reflexivity | reflexivity | reflexivity ].
Defined.

Lemma open_request_times_out_witness :
  exists fuel0 err,
    let r := deleteAppFromEnvironment_wait plain fuel0 opts
               (Some (mkInfo pendingProvider openPR)) 0 in
    result r = Return (Some err)
    /\ (forall fuel, (fuel0 <= fuel)%nat ->
          deleteAppFromEnvironment_wait plain fuel opts
            (Some (mkInfo pendingProvider openPR)) 0 = r)
    /\ (ticks (events r) <= Z.to_nat (deadline / (20 * second)) + 2)%nat
    /\ match err with
       | ErrTimedOut _ _ =>
           exists ts, nowReadings (events r) = (ts ++ [clockAfter r])%list /\
                      0 + deadline < clockAfter r /\
                      Forall (fun t => t <= 0 + deadline) ts
       | ErrQueryStatus _ _ => True
       | ErrCommitStatus _ _ _ => True
       | ErrClosed _ => False
       end.
Proof.
  apply (open_request_times_out plain opts (mkInfo pendingProvider openPR)
           deadline (20 * second) 0);
    [ reflexivity | reflexivity | reflexivity | discriminate | ].
  intros n p e H. cbn in H. injection H as <- _. split; reflexivity.
Defined.

(** C6, as written, fails: the build stays pending, the calls take no time,
    the timeout is 40s and the poll time 20s.  The deadline check of the
    third iteration reads exactly the start plus 40s and does not time
    out; the call times out in the fourth iteration, at 60s, one iteration
    more than [timeout / poll time + 1].  (The first reading is the one
    that fixes the deadline.) *)
Lemma reading_at_deadline_goes_on :
  let r := deleteAppFromEnvironment_wait plain 10 opts
             (infoOf pendingProvider) 0 in
  nowReadings (events r)
  = [0; 0; 20 * second; 40 * second; 60 * second]
  /\ result r = Return (Some (ErrTimedOut url (40 * second)))
  /\ ticks (events r) = 4%nat
  /\ (Z.to_nat (40 * second / (20 * second)) + 1 < ticks (events r))%nat.
Proof. cbv zeta. repeat split. vm_compute. lia. Qed.

Lemma merge_only_when_enabled_and_green_witness :
  mergeCalls
    (events (waitForGitOpsPullRequest plain 3 optsNoMerge
               (infoOf refusingProvider) deadline deadline 0))
  = [].
Proof.
  apply (merge_only_when_enabled_and_green plain 3 optsNoMerge
           (infoOf refusingProvider) deadline deadline 0).
  reflexivity.
Defined.

Lemma closed_unmerged_fails_with_url_witness :
  pollLoop plain 3 opts closedProvider deadline deadline 0 start 0
  = ([EvUpdatePullRequestStatus 0; EvWarnf (msgClosed plain url)],
     0 + elapsed (update (closedProvider 0%nat)),
     Return (Some (ErrClosed url)))
  /\ Contains (Error fortySeconds (ErrClosed url)) url.
Proof.
  apply (closed_unmerged_fails_with_url plain fortySeconds 2 opts
           closedProvider deadline deadline 0 start 0 closedPR);
    [ reflexivity | reflexivity | reflexivity ].
Defined.

Lemma status_query_error_swallowed_witness :
  exists rest,
    events (pollLoop plain 2 opts noStatusProvider deadline deadline 0
              start 0)
    = ([EvUpdatePullRequestStatus 0; EvPullRequestLastCommitStatus 0;
        EvWarnf (msgStatusQueryFailed url sha "404 Not Found")]
         ++ [EvNow 0; EvSleep (20 * second); EvUpdatePullRequestStatus 1]
         ++ rest)%list.
Proof.
  destruct (status_query_error_swallowed plain 0 opts noStatusProvider
              deadline deadline 0 start 0 openPR "" "404 Not Found"
              eq_refl eq_refl eq_refl eq_refl) as [_ H].
  apply (H (20 * second)); [ discriminate | reflexivity ].
Defined.

(** The deadline, one second before the start, has passed when the call
    is made. *)
Lemma first_refresh_precedes_deadline_witness :
  waitForGitOpsPullRequest plain 1 opts (Some (mkInfo mergedProvider openPR))
    (- second) deadline 0
  = ([EvPrintf (msgWaiting url); EvUpdatePullRequestStatus 0;
      EvPrintf (msgMerged plain url)],
     0 + elapsed (update (mergedProvider 0%nat)), Return None).
Proof.
  apply (proj2 (first_refresh_precedes_deadline plain 0 opts
                  (mkInfo mergedProvider openPR) (- second) deadline 0)
           mergedPR);
    [ reflexivity | reflexivity ].
Defined.

End Runs.

(** ** The application name of a Jenkins job *)

Section JobNames.

Local Open Scope string_scope.

Lemma noSlash_Split s : noSlash s = true -> Split s slash = [s].
Proof.
  induction s as [ | a s IH]; intros H; [ reflexivity | ].
  cbn [noSlash] in H. apply andb_true_iff in H. destruct H as [Ha Hs].
  cbn [Split]. apply negb_true_iff in Ha. rewrite Ha, (IH Hs). reflexivity.
Qed.

(** The pieces of a split: the string itself when it has no [/], else some
    pieces followed by the piece after the last [/]. *)
Lemma Split_shape s :
  (Split s slash = [s] /\ noSlash s = true)
  \/ (exists folder app pieces,
        Split s slash = (pieces ++ [app])%list /\ pieces <> [] /\
        noSlash app = true /\ s = folder ++ String slash app).
Proof.
  induction s as [ | a s IH]; [ left; split; reflexivity | ].
  cbn [Split noSlash]. destruct (Ascii.eqb a slash) eqn:Ea.
  - apply Ascii.eqb_eq in Ea. subst a. right.
    destruct IH as [[E Hs] | [folder [app [pieces [E [Hp [Happ Hs]]]]]]].
    + exists "", s, [""]. rewrite E. repeat split; [ discriminate | exact Hs ].
    + exists (String slash folder), app, ("" :: pieces). rewrite E.
      repeat split; [ discriminate | exact Happ | now rewrite Hs ].
  - destruct IH as [[E Hs] | [folder [app [pieces [E [Hp [Happ Hs]]]]]]].
    + left. rewrite E, Hs. split; reflexivity.
    + right. destruct pieces as [ | p0 ps]; [ congruence | ].
      exists (String a folder), app, (String a p0 :: ps). rewrite E.
      repeat split; [ discriminate | exact Happ | now rewrite Hs ].
Qed.

Lemma last_piece {A : Type} (pieces : list A) (x : A) :
  nth_error (pieces ++ [x]) (List.length (pieces ++ [x]) - 1) = Some x.
Proof.
  rewrite length_app. cbn [List.length].
  replace (List.length pieces + 1 - 1)%nat with (List.length pieces) by lia.
  rewrite nth_error_app2 by lia. now rewrite Nat.sub_diag.
Qed.

Lemma appName_pieces name pieces app :
  Split name slash = (pieces ++ [app])%list ->
  appNameFromJenkinsJobName name = Some app.
Proof.
  intros E. unfold appNameFromJenkinsJobName. rewrite E.
  destruct (pieces ++ [app])%list eqn:E2.
  - destruct pieces; discriminate E2.
  - rewrite <- E2. apply last_piece.
Qed.

(** The split of [folder/rest] ends with the split of [rest]. *)
Lemma Split_folder folder rest :
  exists pieces,
    pieces <> [] /\
    Split (folder ++ String slash rest) slash
    = (pieces ++ Split rest slash)%list.
Proof.
  induction folder as [ | a folder [pieces [Hp E]]].
  - exists [""]. split; [ discriminate | ].
    cbn [append Split]. now rewrite Ascii.eqb_refl.
  - cbn [append Split]. rewrite E. destruct (Ascii.eqb a slash).
    + exists ("" :: pieces). split; [ discriminate | reflexivity ].
    + destruct pieces as [ | p0 ps]; [ congruence | ].
      exists (String a p0 :: ps). split; [ discriminate | reflexivity ].
Qed.

(** X1: the application name is always defined (the index is never out of
    range); it has no [/], and the job name is either the application name
    itself or some folder path, a [/], and the application name. *)
Theorem app_name_is_last_segment name :
  exists app,
    appNameFromJenkinsJobName name = Some app
    /\ noSlash app = true
    /\ (name = app \/ exists folder, name = folder ++ "/" ++ app).
Proof.
  destruct (Split_shape name)
    as [[E Hs] | [folder [app [pieces [E [Hp [Happ Hs]]]]]]].
  - exists name. split; [ | split; [ exact Hs | now left ] ].
    apply (appName_pieces name []). exact E.
  - exists app. split; [ | split; [ exact Happ | right; now exists folder ] ].
    apply (appName_pieces name pieces). exact E.
Qed.

(** X2: everything up to a [/] is dropped: the job [folder/rest] has the
    application name of [rest]. *)
Theorem app_name_drops_folder folder rest :
  appNameFromJenkinsJobName (folder ++ "/" ++ rest)
  = appNameFromJenkinsJobName rest.
Proof.
  destruct (Split_folder folder rest) as [pieces [Hp E]].
  destruct (Split_shape rest)
    as [[E2 Hs] | [folder2 [app [pieces2 [E2 [Hp2 [Happ Hs]]]]]]].
  - rewrite (appName_pieces rest [] rest E2).
    apply (appName_pieces _ pieces).
    change (folder ++ "/" ++ rest) with (folder ++ String slash rest).
    now rewrite E, E2.
  - rewrite (appName_pieces rest pieces2 app E2).
    apply (appName_pieces _ (pieces ++ pieces2)).
    change (folder ++ "/" ++ rest) with (folder ++ String slash rest).
    now rewrite E, E2, app_assoc.
Qed.

End JobNames.

(** ** More on the loop: what a run is made of *)

Section Runs_of_the_loop.

Variable ColorInfo : string -> string.

Lemma sleeps_app a b : sleeps (a ++ b) = sleeps a ++ sleeps b.
Proof.
  induction a as [ | e a IH]; [ reflexivity | ].
  destruct e; cbn; rewrite IH; reflexivity.
Qed.

Lemma mergeFailuresLogged_app a b :
  mergeFailuresLogged (a ++ b)
  = (mergeFailuresLogged a + mergeFailuresLogged b)%nat.
Proof.
  induction a as [ | e a IH]; [ reflexivity | ].
  destruct e; cbn; try destruct (isMergeFailure msg); rewrite IH; reflexivity.
Qed.

Lemma isMergeFailure_msgMergeFailed url err :
  isMergeFailure (msgMergeFailed url err) = true.
Proof. destruct url; reflexivity. Qed.

Lemma isMergeFailure_msgStatusQueryFailed url sha err :
  isMergeFailure (msgStatusQueryFailed url sha err) = false.
Proof. reflexivity. Qed.

Lemma isMergeFailure_msgClosed url :
  isMergeFailure (msgClosed ColorInfo url) = false.
Proof. reflexivity. Qed.

(** An iteration goes on to the next one only on a pull request that the
    refresh found open. *)
Lemma tick_Val_open o g end_ duration n l c l' :
  result (tick ColorInfo o g end_ duration n l c) = Val l' ->
  exists p, answer (update (g n)) = (p, None) /\
            isMerged p = false /\ IsClosed p = false.
Proof. run_tick; intros H; try discriminate H; eauto. Qed.

(** A nil pointer is dereferenced only at the sleep: with no poll time,
    and the deadline not passed when the iteration began. *)
Lemma tick_Panic_inv o g end_ duration n l c :
  result (tick ColorInfo o g end_ duration n l c) = Panic ->
  PullRequestPollDuration o = None /\ c <= end_.
Proof.
  assert (Hu := N2Z.is_nonneg (took (update (g n)))).
  assert (Hs := N2Z.is_nonneg (took (lastCommitStatus (g n)))).
  assert (Hm := N2Z.is_nonneg (took (merge (g n)))).
  run_tick; intros H; try discriminate H; (split; [ reflexivity | ]);
    repeat match goal with
           | E : (_ <? _) = false |- _ => apply Z.ltb_ge in E
           end; unfold elapsed in *; lia.
Qed.

(** An iteration sleeps once, the poll time, when it goes on, and not at
    all when it returns. *)
Lemma tick_sleeps o g end_ duration n l c :
  let t := tick ColorInfo o g end_ duration n l c in
  match result t with
  | Val _ => exists d, PullRequestPollDuration o = Some d /\ sleeps (events t) = [d]
  | _ => sleeps (events t) = []
  end.
Proof. cbv zeta. run_tick; cbn [sleeps]; eauto. Qed.

(** An iteration logs a refused merge at most once, only when none was
    logged before, and remembers it. *)
Lemma tick_mergeFailures o g end_ duration n l c :
  let t := tick ColorInfo o g end_ duration n l c in
  let budget (b : bool) := if b then 0%nat else 1%nat in
  (mergeFailuresLogged (events t)
   + match result t with
     | Val l' => budget (logMergeFailure l')
     | _ => 0
     end
   <= budget (logMergeFailure l))%nat.
Proof.
  cbv zeta. run_tick; cbn [mergeFailuresLogged logMergeFailure];
    rewrite ?isMergeFailure_msgMergeFailed,
      ?isMergeFailure_msgStatusQueryFailed, ?isMergeFailure_msgClosed;
    try (cbn [Nat.add]; lia);
    exfalso; cbn [logMergeFailure negb] in *; congruence.
Qed.

(** Where the clock stands after an iteration that times out, and after one
    that goes on. *)
Lemma tick_clock_bounds o g end_ duration n l c :
  let t := tick ColorInfo o g end_ duration n l c in
  match result t with
  | Val _ =>
      forall d, PullRequestPollDuration o = Some d ->
                clockAfter t <= end_ + Z.max 0 d
  | _ => clockAfter t <= c + tickLatency (g n)
  end.
Proof.
  assert (Hu := N2Z.is_nonneg (took (update (g n)))).
  assert (Hs := N2Z.is_nonneg (took (lastCommitStatus (g n)))).
  assert (Hm := N2Z.is_nonneg (took (merge (g n)))).
  cbv zeta. unfold tickLatency.
  run_tick; try (intros d' Hd'; injection Hd' as <-);
    repeat match goal with
           | E : (_ <? _) = false |- _ => apply Z.ltb_ge in E
           end; unfold elapsed in *; lia.
Qed.

(** Every iteration before the last one a run has started found the pull
    request open. *)
Lemma pollLoop_earlier_open o g end_ duration fuel :
  forall n l c j,
    (S j < ticks (events (pollLoop ColorInfo fuel o g end_ duration n l c)))%nat ->
    exists p, answer (update (g (n + j)%nat)) = (p, None) /\
              isMerged p = false /\ IsClosed p = false.
Proof.
  induction fuel as [ | fuel IH]; intros n l c j H; [ cbn in H; lia | ].
  rewrite pollLoop_step in H. cbv zeta in H.
  assert (H1 := tick_ticks ColorInfo o g end_ duration n l c).
  destruct (result (tick ColorInfo o g end_ duration n l c))
    as [l' | e | ] eqn:Ht; try lia.
  rewrite events_prefixed, ticks_app, H1 in H.
  destruct j as [ | j].
  - rewrite Nat.add_0_r. exact (tick_Val_open _ _ _ _ _ _ _ _ Ht).
  - replace (n + S j)%nat with (S n + j)%nat by lia.
    apply (IH (S n) l'
             (clockAfter (tick ColorInfo o g end_ duration n l c)) j).
    lia.
Qed.

(** A run sleeps the poll time once between two iterations, and not after
    the one it returns from. *)
Lemma pollLoop_sleeps o g end_ duration d fuel :
  PullRequestPollDuration o = Some d ->
  forall n l c,
    let r := pollLoop ColorInfo fuel o g end_ duration n l c in
    ticks (events r)
    = (List.length (sleeps (events r))
       + match result r with Val _ => 0 | _ => 1 end)%nat
    /\ Forall (eq d) (sleeps (events r)).
Proof.
  intros Hd. induction fuel as [ | fuel IH]; intros n l c;
    [ split; [ reflexivity | constructor ] | ].
  cbv zeta. rewrite pollLoop_step. cbv zeta.
  assert (H1 := tick_ticks ColorInfo o g end_ duration n l c).
  assert (H2 := tick_sleeps o g end_ duration n l c). cbv zeta in H2.
  destruct (result (tick ColorInfo o g end_ duration n l c))
    as [l' | e | ] eqn:Ht.
  - destruct H2 as [d' [Hd' H2]]. rewrite Hd in Hd'. injection Hd' as <-.
    destruct (IH (S n) l'
                (clockAfter (tick ColorInfo o g end_ duration n l c)))
      as [IH1 IH2].
    rewrite events_prefixed, result_prefixed, ticks_app, sleeps_app, H1, H2,
      IH1.
    split; [ reflexivity | ]. constructor; [ reflexivity | exact IH2 ].
  - rewrite Ht, H1, H2. split; [ reflexivity | constructor ].
  - rewrite Ht, H1, H2. split; [ reflexivity | constructor ].
Qed.

(** A run logs a refused merge at most once, and not at all when one was
    logged before it began. *)
Lemma pollLoop_mergeFailures o g end_ duration fuel :
  forall n l c,
    (mergeFailuresLogged
       (events (pollLoop ColorInfo fuel o g end_ duration n l c))
     <= if logMergeFailure l then 0 else 1)%nat.
Proof.
  induction fuel as [ | fuel IH]; intros n l c; [ cbn; lia | ].
  rewrite pollLoop_step. cbv zeta.
  assert (H := tick_mergeFailures o g end_ duration n l c). cbv zeta in H.
  destruct (result (tick ColorInfo o g end_ duration n l c)) as [l' | e | ].
  - rewrite events_prefixed, mergeFailuresLogged_app.
    specialize (IH (S n) l'
                  (clockAfter (tick ColorInfo o g end_ duration n l c))).
    lia.
  - lia.
  - lia.
Qed.

(** When a run has ended, the clock stands at most one iteration's calls
    after the later of its start and the last possible wake-up. *)
Lemma pollLoop_clock_bound o g end_ duration d L :
  PullRequestPollDuration o = Some d ->
  (forall n, tickLatency (g n) <= L) ->
  forall fuel n l c,
    let r := pollLoop ColorInfo fuel o g end_ duration n l c in
    match result r with
    | Val _ => True
    | _ => clockAfter r <= Z.max c (end_ + Z.max 0 d) + L
    end.
Proof.
  intros Hd HL. induction fuel as [ | fuel IH]; intros n l c; [ exact I | ].
  cbv zeta. rewrite pollLoop_step. cbv zeta.
  assert (H := tick_clock_bounds o g end_ duration n l c). cbv zeta in H.
  specialize (HL n).
  destruct (result (tick ColorInfo o g end_ duration n l c))
    as [l' | e | ] eqn:Ht.
  - specialize (H d Hd).
    specialize (IH (S n) l'
                  (clockAfter (tick ColorInfo o g end_ duration n l c))).
    cbv zeta in IH. rewrite result_prefixed, clockAfter_prefixed.
    destruct (result (pollLoop ColorInfo fuel o g end_ duration (S n) l' _));
      [ exact I | lia | lia ].
  - rewrite Ht. lia.
  - rewrite Ht. lia.
Qed.

(** What a [nil] return of the loop tells about the replies. *)
Lemma waitFor_nil_inv fuel o info end_ duration c :
  let r := waitForGitOpsPullRequest ColorInfo fuel o (Some info)
             end_ duration c in
  result r = Return None ->
  exists k p,
    ticks (events r) = S k
    /\ answer (update (GitProvider info k)) = (p, None)
    /\ isMerged p = true
    /\ forall j, (j < k)%nat ->
         exists q, answer (update (GitProvider info j)) = (q, None) /\
                   isMerged q = false /\ IsClosed q = false.
Proof.
  cbv zeta. rewrite waitFor_Some, result_prefixed, events_prefixed, ticks_app.
  cbn [ticks Nat.add]. intros H.
  destruct (pollLoop_justified ColorInfo _ _ _ _ _ _ _ _ _ H) as [k [Hk Hj]].
  unfold justified in Hj. cbn [Nat.add] in Hj.
  destruct (answer (update (GitProvider info k))) as [p e] eqn:Ep.
  destruct Hj as [-> Hm].
  exists k, p. repeat split; try assumption.
  intros j Hlt.
  apply (pollLoop_earlier_open o (GitProvider info) end_ duration fuel
           0%nat (mkLocals (PullRequest info) false) c j).
  rewrite Hk. lia.
Qed.

(** X3: a call that returns [nil] on a pull request has seen it merged:
    the refresh of its last iteration succeeded and reported the request
    merged, and every earlier refresh found it open. *)
Theorem nil_return_means_merged fuel o info end_ duration c :
  let r := waitForGitOpsPullRequest ColorInfo fuel o (Some info)
             end_ duration c in
  result r = Return None ->
  exists k p,
    ticks (events r) = S k
    /\ answer (update (GitProvider info k)) = (p, None)
    /\ isMerged p = true
    /\ forall j, (j < k)%nat ->
         exists q, answer (update (GitProvider info j)) = (q, None) /\
                   isMerged q = false /\ IsClosed q = false.
Proof. exact (waitFor_nil_inv fuel o info end_ duration c). Qed.

(** X4: on an open pull request whose status query succeeds with a status
    that is none of [success], [error] and [failure] (a build still
    pending, say), the iteration calls and logs nothing more and goes on
    with the deadline check. *)
Theorem undecided_status_no_action fuel o g end_ duration n l c p status :
  answer (update (g n)) = (p, None) ->
  isMerged p = false ->
  IsClosed p = false ->
  answer (lastCommitStatus (g n)) = (status, None) ->
  status <> "success"%string ->
  status <> "error"%string ->
  status <> "failure"%string ->
  pollLoop ColorInfo (S fuel) o g end_ duration n l c
  = prefixed
      [EvUpdatePullRequestStatus n; EvPullRequestLastCommitStatus n]
      (bind (endOfTick o end_ duration p (logMergeFailure l))
            (fun l' => pollLoop ColorInfo fuel o g end_ duration (S n) l')
            (c + elapsed (update (g n)) + elapsed (lastCommitStatus (g n)))).
Proof.
  intros H Hm Hc Hs H1 H2 H3. apply pollLoop_prefixed.
  rewrite (tick_open _ _ _ _ _ _ _ _ _ H Hm Hc).
  erewrite bind_Val.
  - rewrite prefixed_app. reflexivity.
  - unfold tryMerge, bind, PullRequestLastCommitStatus, call. rewrite Hs.
    apply String.eqb_neq in H1, H2, H3. rewrite H1, H2, H3. reflexivity.
Qed.

(** X5: a [MergePullRequest] call that succeeds is not logged and does not
    end the call: the iteration goes on with the deadline check, and the
    call returns [nil] only once a refresh reports the request merged. *)
Theorem merge_success_goes_on fuel o g end_ duration n l c p :
  answer (update (g n)) = (p, None) ->
  isMerged p = false ->
  IsClosed p = false ->
  answer (lastCommitStatus (g n)) = ("success"%string, None) ->
  NoMergePullRequest o = false ->
  answer (merge (g n)) = None ->
  pollLoop ColorInfo (S fuel) o g end_ duration n l c
  = prefixed
      [EvUpdatePullRequestStatus n; EvPullRequestLastCommitStatus n;
       EvMergePullRequest n mergeMessage]
      (bind (endOfTick o end_ duration p (logMergeFailure l))
            (fun l' => pollLoop ColorInfo fuel o g end_ duration (S n) l')
            (c + elapsed (update (g n)) + elapsed (lastCommitStatus (g n))
               + elapsed (merge (g n)))).
Proof.
  intros H Hm Hc Hs Ho He. apply pollLoop_prefixed.
  rewrite (tick_open _ _ _ _ _ _ _ _ _ H Hm Hc).
  erewrite bind_Val.
  - rewrite prefixed_app. reflexivity.
  - unfold tryMerge, bind, PullRequestLastCommitStatus, MergePullRequest,
      call.
    rewrite Hs, Ho. cbn. rewrite He. reflexivity.
Qed.

(** X6: whatever the provider answers and however long the call runs, at
    most one warning about a refused merge is logged. *)
Theorem at_most_one_merge_failure_logged fuel o pullRequestInfo end_
    duration c :
  (mergeFailuresLogged
     (events (waitForGitOpsPullRequest ColorInfo fuel o pullRequestInfo
                end_ duration c)) <= 1)%nat.
Proof.
  destruct pullRequestInfo as [info | ]; [ | cbn; lia ].
  rewrite waitFor_Some, events_prefixed, mergeFailuresLogged_app.
  assert (H := pollLoop_mergeFailures o (GitProvider info) end_ duration fuel
                 0%nat (mkLocals (PullRequest info) false) c).
  cbn [logMergeFailure] in H.
  assert (E : mergeFailuresLogged
                [EvPrintf (msgWaiting (URL (PullRequest info)))] = 0%nat)
    by reflexivity.
  rewrite E. lia.
Qed.

(** X7: a call made after its deadline makes exactly one iteration and
    returns from it, without sleeping and without touching the poll time:
    it returns even when no poll time is set. *)
Theorem passed_deadline_one_iteration fuel o info end_ duration c :
  end_ < c ->
  let r := waitForGitOpsPullRequest ColorInfo (S fuel) o (Some info)
             end_ duration c in
  (exists err, result r = Return err)
  /\ ticks (events r) = 1%nat
  /\ sleeps (events r) = [].
Proof.
  intros Hlate. cbv zeta.
  rewrite waitFor_Some, result_prefixed, events_prefixed, ticks_app,
    sleeps_app, pollLoop_step.
  cbv zeta.
  assert (H1 := tick_ticks ColorInfo o (GitProvider info) end_ duration 0%nat
                  (mkLocals (PullRequest info) false) c).
  assert (H2 := tick_sleeps o (GitProvider info) end_ duration 0%nat
                  (mkLocals (PullRequest info) false) c).
  cbv zeta in H2.
  destruct (result (tick ColorInfo o (GitProvider info) end_ duration 0%nat
                      (mkLocals (PullRequest info) false) c))
    as [l' | e | ] eqn:Ht.
  - apply tick_continues in Ht. lia.
  - rewrite Ht, H1, H2. repeat split. eauto.
  - apply tick_Panic_inv in Ht. lia.
Qed.

(** X8: with no poll time set (the flag given as the empty string) the
    call never reaches a second iteration: it returns from the first one,
    or dereferences the nil pointer at the first sleep. *)
Theorem nil_poll_time_one_iteration fuel o info end_ duration c :
  PullRequestPollDuration o = None ->
  let r := waitForGitOpsPullRequest ColorInfo (S fuel) o (Some info)
             end_ duration c in
  ticks (events r) = 1%nat
  /\ sleeps (events r) = []
  /\ (result r = Panic \/ exists err, result r = Return err).
Proof.
  intros Hd. cbv zeta.
  rewrite waitFor_Some, result_prefixed, events_prefixed, ticks_app,
    sleeps_app, pollLoop_step.
  cbv zeta.
  assert (H1 := tick_ticks ColorInfo o (GitProvider info) end_ duration 0%nat
                  (mkLocals (PullRequest info) false) c).
  assert (H2 := tick_sleeps o (GitProvider info) end_ duration 0%nat
                  (mkLocals (PullRequest info) false) c).
  cbv zeta in H2.
  destruct (result (tick ColorInfo o (GitProvider info) end_ duration 0%nat
                      (mkLocals (PullRequest info) false) c))
    as [l' | e | ] eqn:Ht.
  - apply tick_continues in Ht. destruct Ht as [_ [d [Hd' _]]]. congruence.
  - rewrite Ht, H1, H2. repeat split. right. eauto.
  - rewrite Ht, H1, H2. repeat split. now left.
Qed.

(** X9: when the wait started by [deleteAppFromEnvironment] times out, it
    does so later than the timeout after its start, and at most one poll
    time plus the time of one iteration's provider calls later than
    that. *)
Theorem timeout_overshoot_bound fuel o info timeout d L c u dd :
  TimeoutDuration o = Some timeout ->
  0 <= timeout ->
  PullRequestPollDuration o = Some d ->
  (forall n, tickLatency (GitProvider info n) <= L) ->
  let r := deleteAppFromEnvironment_wait ColorInfo fuel o (Some info) c in
  result r = Return (Some (ErrTimedOut u dd)) ->
  c + timeout < clockAfter r <= c + timeout + Z.max 0 d + L.
Proof.
  intros Ht Htime Hd HL. cbv zeta.
  rewrite (deleteApp_wait_Some _ _ _ _ _ _ Ht), result_prefixed,
    clockAfter_prefixed.
  intros H.
  assert (Hb := pollLoop_clock_bound o (GitProvider info) (c + timeout)
                  timeout d L Hd HL fuel 0%nat
                  (mkLocals (PullRequest info) false) c).
  cbv zeta in Hb. rewrite H in Hb.
  destruct (pollLoop_justified ColorInfo _ _ _ _ _ _ _ _ _ H) as [k [_ Hj]].
  unfold justified in Hj.
  destruct (answer (update (GitProvider info (0 + k)))) as [p e].
  destruct Hj as [_ [_ [_ [Hlate _]]]]. lia.
Qed.

(** X10: in a call that has returned, the loop slept exactly once between
    two consecutive iterations, each time the configured poll time, and
    not after the last iteration. *)
Theorem one_sleep_between_iterations fuel o info end_ duration c d err :
  PullRequestPollDuration o = Some d ->
  let r := waitForGitOpsPullRequest ColorInfo fuel o (Some info)
             end_ duration c in
  result r = Return err ->
  ticks (events r) = S (List.length (sleeps (events r)))
  /\ Forall (eq d) (sleeps (events r)).
Proof.
  intros Hd. cbv zeta.
  rewrite waitFor_Some, result_prefixed, events_prefixed, ticks_app,
    sleeps_app.
  intros H.
  destruct (pollLoop_sleeps o (GitProvider info) end_ duration d fuel Hd
              0%nat (mkLocals (PullRequest info) false) c) as [H1 H2].
  rewrite H in H1. cbn [ticks sleeps app Nat.add]. split; [ lia | exact H2 ].
Qed.

End Runs_of_the_loop.

(** ** Deleting an application *)

Section Deleting.

Variable ColorInfo : string -> string.

Lemma pullRequestsCreated_app a b :
  pullRequestsCreated (a ++ b)
  = pullRequestsCreated a ++ pullRequestsCreated b.
Proof.
  induction a as [ | e a IH]; [ reflexivity | ].
  destruct e; cbn; rewrite IH; reflexivity.
Qed.

Lemma jobsDeleted_app a b : jobsDeleted (a ++ b) = jobsDeleted a ++ jobsDeleted b.
Proof.
  induction a as [ | e a IH]; [ reflexivity | ].
  destruct e; cbn; rewrite IH; reflexivity.
Qed.

(** The poll loop creates no pull request and deletes no job. *)
Lemma pullRequestsCreated_Ev evs : pullRequestsCreated (map Ev evs) = [].
Proof. induction evs as [ | e evs IH]; [ reflexivity | exact IH ]. Qed.

Lemma jobsDeleted_Ev evs : jobsDeleted (map Ev evs) = [].
Proof. induction evs as [ | e evs IH]; [ reflexivity | exact IH ]. Qed.

Lemma traceOf_ofWait x : traceOf (ofWait x) = map Ev (events x).
Proof. destruct x as [[evs c] [l | err | ]]; reflexivity. Qed.

Lemma outcomeOf_ofWait x :
  outcomeOf (ofWait x)
  = match result x with
    | Val _ => OutOfFuel
    | Return err => Finished (option_map PollFailed err)
    | Panic => Crashed
    end.
Proof. destruct x as [[evs c] [l | err | ]]; reflexivity. Qed.

(** The two ways [orReturn] goes. *)
Lemma orReturn_cases (f rest : Call) c :
  (outcomeOf (f c) = Finished None /\
   traceOf (orReturn f rest c)
   = traceOf (f c) ++ traceOf (rest (clockOf (f c))) /\
   outcomeOf (orReturn f rest c) = outcomeOf (rest (clockOf (f c))))
  \/ (outcomeOf (f c) <> Finished None /\ orReturn f rest c = f c).
Proof.
  unfold orReturn. destruct (f c) as [[e1 c1] [[err | ] | | ]];
    try (right; split; [ discriminate | reflexivity ]).
  left. cbn. destruct (rest c1) as [[e2 c2] r]. repeat split.
Qed.

(** The loop panics only at the sleep, for want of a poll time. *)
Lemma pollLoop_Panic_inv o g end_ duration fuel :
  forall n l c,
    result (pollLoop ColorInfo fuel o g end_ duration n l c) = Panic ->
    PullRequestPollDuration o = None.
Proof.
  induction fuel as [ | fuel IH]; intros n l c H; [ discriminate H | ].
  rewrite pollLoop_step in H. cbv zeta in H.
  destruct (result (tick ColorInfo o g end_ duration n l c))
    as [l' | e | ] eqn:Ht.
  - rewrite result_prefixed in H. exact (IH _ _ _ H).
  - rewrite Ht in H. discriminate H.
  - apply tick_Panic_inv in Ht. tauto.
Qed.

Lemma appName_defined name :
  exists app, appNameFromJenkinsJobName name = Some app.
Proof.
  destruct (Split_shape name) as [[E _] | [folder [app [pieces [E _]]]]].
  - exists name. apply (appName_pieces name []). exact E.
  - exists app. apply (appName_pieces name pieces). exact E.
Qed.

(** What [deleteAppFromEnvironment] does, by the source URL of the
    environment and the reply of [createEnvironmentPullRequest]. *)
Lemma deleteAppFromEnvironment_no_source fuel o create env appName username c :
  SourceURL env = ""%string ->
  deleteAppFromEnvironment ColorInfo fuel o create env appName username c
  = ([], c, Finished None).
Proof.
  intros H. unfold deleteAppFromEnvironment. rewrite H. reflexivity.
Qed.

Lemma deleteAppFromEnvironment_create_failed fuel o create env appName
    username c info err :
  SourceURL env <> ""%string ->
  answer create = (info, Some err) ->
  deleteAppFromEnvironment ColorInfo fuel o create env appName username c
  = ([Ev (EvPrintf (msgRemoving appName (Label env)));
      EvCreateEnvironmentPullRequest env appName (branchNameFor appName)
        (titleFor appName) (messageFor username)],
     c + elapsed create, Finished (Some (CallFailed err))).
Proof.
  intros H Hc. unfold deleteAppFromEnvironment, collaborate.
  apply String.eqb_neq in H. rewrite H. cbv beta.
  unfold error in *. rewrite Hc. reflexivity.
Qed.

Lemma deleteAppFromEnvironment_created fuel o create env appName username c
    info :
  SourceURL env <> ""%string ->
  answer create = (info, None) ->
  let w := ofWait (deleteAppFromEnvironment_wait ColorInfo fuel o info
                     (c + elapsed create)) in
  deleteAppFromEnvironment ColorInfo fuel o create env appName username c
  = (Ev (EvPrintf (msgRemoving appName (Label env)))
       :: EvCreateEnvironmentPullRequest env appName (branchNameFor appName)
            (titleFor appName) (messageFor username)
       :: traceOf w,
     clockOf w, outcomeOf w).
Proof.
  intros H Hc. cbv zeta. unfold deleteAppFromEnvironment, collaborate.
  apply String.eqb_neq in H. rewrite H. cbv beta.
  unfold error in *. rewrite Hc.
  destruct (ofWait _) as [[e2 c2] out]. reflexivity.
Qed.

(** The three cases together. *)
Lemma deleteAppFromEnvironment_cases fuel o create env appName username c :
  let r := deleteAppFromEnvironment ColorInfo fuel o create env appName
             username c in
  (SourceURL env = ""%string /\ r = ([], c, Finished None))
  \/ (SourceURL env <> ""%string /\
      exists info err, answer create = (info, Some err) /\
        pullRequestsCreated (traceOf r) = [env] /\
        jobsDeleted (traceOf r) = [] /\
        outcomeOf r = Finished (Some (CallFailed err)))
  \/ (SourceURL env <> ""%string /\
      exists info, answer create = (info, None) /\
        pullRequestsCreated (traceOf r) = [env] /\
        jobsDeleted (traceOf r) = [] /\
        outcomeOf r
        = outcomeOf (ofWait (deleteAppFromEnvironment_wait ColorInfo fuel o
                               info (c + elapsed create)))).
Proof.
  cbv zeta. destruct (String.eqb_spec (SourceURL env) "") as [E | E].
  - left. split; [ exact E | ]. now apply deleteAppFromEnvironment_no_source.
  - right. destruct (answer create) as [info [err | ]] eqn:Ec.
    + left. split; [ exact E | ]. exists info, err.
      rewrite (deleteAppFromEnvironment_create_failed _ _ _ _ _ _ _ _ _ E Ec).
      repeat split.
    + right. split; [ exact E | ]. exists info.
      rewrite (deleteAppFromEnvironment_created _ _ _ _ _ _ _ _ E Ec).
      cbn [traceOf outcomeOf fst snd pullRequestsCreated jobsDeleted].
      rewrite traceOf_ofWait, pullRequestsCreated_Ev, jobsDeleted_Ev.
      repeat split.
Qed.

(** [orReturn] only looks at what its continuation does at the clock it
    is started at, and nests to the right. *)
Lemma orReturn_ext (f g g' : Call) c :
  (forall c', g c' = g' c') -> orReturn f g c = orReturn f g' c.
Proof.
  intros H. unfold orReturn.
  destruct (f c) as [[e1 c1] [[err | ] | | ]]; try reflexivity.
  now rewrite H.
Qed.

Lemma orReturn_assoc (f g h : Call) c :
  orReturn (orReturn f g) h c = orReturn f (orReturn g h) c.
Proof.
  unfold orReturn.
  destruct (f c) as [[e1 c1] [[err | ] | | ]]; try reflexivity.
  destruct (g c1) as [[e2 c2] [[err | ] | | ]]; try reflexivity.
  destruct (h c2) as [[e3 c3] r]. now rewrite app_assoc.
Qed.

Lemma orReturn_finish (g : Call) c : orReturn (finish None) g c = g c.
Proof. unfold orReturn, finish. destruct (g c) as [[e c1] r]. reflexivity. Qed.

(** The loop over the environments asks for pull requests only on
    environments of the list that have a source URL, deletes no job, and
    crashes only for want of a duration. *)
Lemma removeFromEnvironments_pullRequests fuel o w envMap appName username
    envNames :
  forall i c env,
    In env (pullRequestsCreated
              (traceOf (removeFromEnvironments ColorInfo fuel o w envMap
                          appName username i envNames c))) ->
    SourceURL env <> ""%string /\
    exists envName, In envName envNames /\ envMap envName = Some env.
Proof.
  induction envNames as [ | envName rest IH]; intros i c env H;
    [ destruct H | ].
  cbn [removeFromEnvironments] in H.
  destruct (envMap envName) as [env0 | ] eqn:E.
  - destruct (orReturn_cases
                (deleteAppFromEnvironment ColorInfo fuel o
                   (createEnvironmentPullRequest w i) env0 appName username)
                (removeFromEnvironments ColorInfo fuel o w envMap appName
                   username (S i) rest) c) as [[_ [Ht _]] | [_ Ht]];
      rewrite Ht in H; clear Ht.
    + rewrite pullRequestsCreated_app in H. apply in_app_or in H.
      destruct H as [H | H].
      * destruct (deleteAppFromEnvironment_cases fuel o
                    (createEnvironmentPullRequest w i) env0 appName username
                    c)
          as [[_ Hr] | [[Hs [? [? [_ [Hp _]]]]] | [Hs [? [_ [Hp _]]]]]];
          cbv zeta in *.
        -- rewrite Hr in H. destruct H.
        -- rewrite Hp in H. destruct H as [<- | []].
           split; [ exact Hs | ]. exists envName. split; [ now left | exact E ].
        -- rewrite Hp in H. destruct H as [<- | []].
           split; [ exact Hs | ]. exists envName. split; [ now left | exact E ].
      * destruct (IH _ _ _ H) as [Hs [nm [Hin Hm]]].
        split; [ exact Hs | ]. exists nm. split; [ now right | exact Hm ].
    + destruct (deleteAppFromEnvironment_cases fuel o
                  (createEnvironmentPullRequest w i) env0 appName username c)
        as [[_ Hr] | [[Hs [? [? [_ [Hp _]]]]] | [Hs [? [_ [Hp _]]]]]];
        cbv zeta in *.
      * rewrite Hr in H. destruct H.
      * rewrite Hp in H. destruct H as [<- | []].
        split; [ exact Hs | ]. exists envName. split; [ now left | exact E ].
      * rewrite Hp in H. destruct H as [<- | []].
        split; [ exact Hs | ]. exists envName. split; [ now left | exact E ].
  - destruct (IH _ _ _ H) as [Hs [nm [Hin Hm]]].
    split; [ exact Hs | ]. exists nm. split; [ now right | exact Hm ].
Qed.

Lemma deleteAppFromEnvironment_jobs fuel o create env appName username c :
  jobsDeleted (traceOf (deleteAppFromEnvironment ColorInfo fuel o create env
                          appName username c)) = [].
Proof.
  destruct (deleteAppFromEnvironment_cases fuel o create env appName username
              c)
    as [[_ Hr] | [[_ [? [? [_ [_ [Hj _]]]]]] | [_ [? [_ [_ [Hj _]]]]]]];
    cbv zeta in *; [ now rewrite Hr | exact Hj | exact Hj ].
Qed.

Lemma removeFromEnvironments_jobs fuel o w envMap appName username envNames :
  forall i c,
    jobsDeleted (traceOf (removeFromEnvironments ColorInfo fuel o w envMap
                            appName username i envNames c)) = [].
Proof.
  induction envNames as [ | envName rest IH]; intros i c; [ reflexivity | ].
  cbn [removeFromEnvironments]. destruct (envMap envName) as [env0 | ].
  - destruct (orReturn_cases
                (deleteAppFromEnvironment ColorInfo fuel o
                   (createEnvironmentPullRequest w i) env0 appName username)
                (removeFromEnvironments ColorInfo fuel o w envMap appName
                   username (S i) rest) c) as [[_ [Ht _]] | [_ Ht]];
      rewrite Ht.
    + now rewrite jobsDeleted_app, deleteAppFromEnvironment_jobs, IH.
    + apply deleteAppFromEnvironment_jobs.
  - apply IH.
Qed.

Lemma deleteAppFromEnvironment_wait_Panic_inv fuel o info c :
  result (deleteAppFromEnvironment_wait ColorInfo fuel o info c) = Panic ->
  TimeoutDuration o = None \/ PullRequestPollDuration o = None.
Proof.
  destruct (TimeoutDuration o) as [timeout | ] eqn:Ht; [ | now left ].
  destruct info as [info | ].
  - rewrite (deleteApp_wait_Some _ _ _ _ _ _ Ht), result_prefixed.
    intros H. right. exact (pollLoop_Panic_inv _ _ _ _ _ _ _ _ H).
  - unfold deleteAppFromEnvironment_wait. rewrite Ht. discriminate.
Qed.

Lemma deleteAppFromEnvironment_Crashed_inv fuel o create env appName
    username c :
  outcomeOf (deleteAppFromEnvironment ColorInfo fuel o create env appName
               username c) = Crashed ->
  TimeoutDuration o = None \/ PullRequestPollDuration o = None.
Proof.
  destruct (deleteAppFromEnvironment_cases fuel o create env appName username
              c)
    as [[_ Hr] | [[_ [? [? [_ [_ [_ Ho]]]]]] | [_ [info [_ [_ [_ Ho]]]]]]];
    cbv zeta in *.
  - rewrite Hr. discriminate.
  - rewrite Ho. discriminate.
  - rewrite Ho, outcomeOf_ofWait.
    destruct (result (deleteAppFromEnvironment_wait ColorInfo fuel o info
                        (c + elapsed create))) as [l | err | ] eqn:Hw;
      try discriminate.
    intros _. exact (deleteAppFromEnvironment_wait_Panic_inv _ _ _ _ Hw).
Qed.

Lemma removeFromEnvironments_Crashed_inv fuel o w envMap appName username
    envNames :
  forall i c,
    outcomeOf (removeFromEnvironments ColorInfo fuel o w envMap appName
                 username i envNames c) = Crashed ->
    TimeoutDuration o = None \/ PullRequestPollDuration o = None.
Proof.
  induction envNames as [ | envName rest IH]; intros i c; [ discriminate | ].
  cbn [removeFromEnvironments]. destruct (envMap envName) as [env0 | ].
  - destruct (orReturn_cases
                (deleteAppFromEnvironment ColorInfo fuel o
                   (createEnvironmentPullRequest w i) env0 appName username)
                (removeFromEnvironments ColorInfo fuel o w envMap appName
                   username (S i) rest) c) as [[_ [_ Ho]] | [_ Ho]];
      rewrite Ho.
    + apply IH.
    + apply deleteAppFromEnvironment_Crashed_inv.
  - apply IH.
Qed.

(** Going through a collaborator call: a property of runs that holds of
    the failed call and is kept when the call event is put in front holds
    of the whole. *)
Lemma collaborate_ind {A : Type} (P : list AppEvent * Z * Outcome -> Prop)
    (e : AppEvent) (r : Reply (A * error)) (rest : A -> Call) c :
  (forall err, P ([e], c + elapsed r, Finished (Some (CallFailed err)))) ->
  (forall a evs c' out,
      rest a (c + elapsed r) = (evs, c', out) -> P (e :: evs, c', out)) ->
  P (collaborate e r rest c).
Proof.
  intros Herr Hok. unfold collaborate.
  destruct (answer r) as [a [err | ]]; [ apply Herr | ].
  destruct (rest a (c + elapsed r)) as [[e2 c2] out] eqn:E.
  now apply (Hok a).
Qed.

Lemma collaborate_keeps {A : Type} (P : list AppEvent * Z * Outcome -> Prop)
    (e : AppEvent) (r : Reply (A * error)) (rest : A -> Call) c :
  (forall err, P ([e], c + elapsed r, Finished (Some (CallFailed err)))) ->
  (forall evs c' out, P (evs, c', out) -> P (e :: evs, c', out)) ->
  (forall a, answer r = (a, None) -> P (rest a (c + elapsed r))) ->
  P (collaborate e r rest c).
Proof.
  intros Herr Hcons Hok. unfold collaborate.
  destruct (answer r) as [a [err | ]] eqn:E; [ apply Herr | ].
  specialize (Hok a eq_refl).
  destruct (rest a (c + elapsed r)) as [[e2 c2] out].
  now apply Hcons.
Qed.

(** The last step of [deleteApp]: the job is deleted and the error of
    that call returned. *)
Lemma deleteJob_step (w : AppWorld) name c :
  collaborate (EvDeleteJob name) (deleteJob w) (fun _ => finish None) c
  = ([EvDeleteJob name], c + elapsed (deleteJob w),
     Finished (option_map CallFailed (snd (answer (deleteJob w))))).
Proof.
  unfold collaborate, finish.
  destruct (answer (deleteJob w)) as [a [err | ]]; reflexivity.
Qed.

(** [deleteApp] after its five preliminary calls. *)
Lemma deleteApp_through (P : list AppEvent * Z * Outcome -> Prop)
    fuel o w name c :
  (forall s err c', P ([EvCollaborator s], c', Finished (Some (CallFailed err)))) ->
  (forall s evs c' out, P (evs, c', out) -> P (EvCollaborator s :: evs, c', out)) ->
  (forall envMap envNames username c',
      preliminariesSucceeded w ->
      fst (answer (getOrderedEnvironments w)) = (envMap, envNames) ->
      P (match appNameFromJenkinsJobName name with
         | None => ([], c', Crashed)
         | Some appName =>
             orReturn
               (removeFromEnvironments ColorInfo fuel o w envMap appName
                  username 0 envNames)
               (collaborate (EvDeleteJob name) (deleteJob w)
                  (fun _ => finish None)) c'
         end)) ->
  P (deleteApp ColorInfo fuel o w name c).
Proof.
  intros Herr Hcons Hcore. unfold deleteApp.
  apply collaborate_keeps; [ intros; apply Herr | apply Hcons | ].
  intros a1 E1.
  apply collaborate_keeps; [ intros; apply Herr | apply Hcons | ].
  intros a2 E2.
  apply collaborate_keeps; [ intros; apply Herr | apply Hcons | ].
  intros a3 E3.
  apply collaborate_keeps; [ intros; apply Herr | apply Hcons | ].
  intros [envMap envNames] E4.
  apply collaborate_keeps; [ intros; apply Herr | apply Hcons | ].
  intros username E5.
  assert (Hp : preliminariesSucceeded w).
  { unfold preliminariesSucceeded. unfold error in *.
    rewrite E1, E2, E3, E4, E5. repeat split. }
  assert (He : fst (answer (getOrderedEnvironments w)) = (envMap, envNames)).
  { unfold error in *. now rewrite E4. }
  specialize (Hcore envMap envNames username
                (c + elapsed (createApiExtensionsClient w)
                   + elapsed (registerEnvironmentCRD w)
                   + elapsed (jxClientAndDevNamespace w)
                   + elapsed (getOrderedEnvironments w)
                   + elapsed (currentUser w)) Hp He).
  cbn [fst snd]. destruct (appNameFromJenkinsJobName name); exact Hcore.
Qed.

(** The loop over a list of environments in two parts. *)
Lemma removeFromEnvironments_app fuel o w envMap appName username before
    after :
  forall i c,
    removeFromEnvironments ColorInfo fuel o w envMap appName username i
      (before ++ after) c
    = orReturn
        (removeFromEnvironments ColorInfo fuel o w envMap appName username i
           before)
        (removeFromEnvironments ColorInfo fuel o w envMap appName username
           (i + List.length before) after) c.
Proof.
  induction before as [ | envName rest IH]; intros i c.
  - cbn [app List.length removeFromEnvironments].
    rewrite Nat.add_0_r. now rewrite orReturn_finish.
  - cbn [app List.length removeFromEnvironments].
    replace (i + S (List.length rest))%nat
      with (S i + List.length rest)%nat by lia.
    destruct (envMap envName) as [env0 | ]; [ | apply IH ].
    rewrite orReturn_assoc. apply orReturn_ext. intros c'. apply IH.
Qed.

(** X11: [deleteApp] asks for a pull request only on an environment that
    has a source URL and that the environment map holds under one of the
    ordered names, and only after its five preliminary calls all returned
    [nil]. *)
Theorem pull_requests_only_for_sourced_environments fuel o w name c env :
  In env (pullRequestsCreated
            (traceOf (deleteApp ColorInfo fuel o w name c))) ->
  SourceURL env <> ""%string
  /\ (exists envName,
         In envName (snd (fst (answer (getOrderedEnvironments w)))) /\
         fst (fst (answer (getOrderedEnvironments w))) envName = Some env)
  /\ preliminariesSucceeded w.
Proof.
  revert env.
  apply (deleteApp_through
           (fun x => forall env,
                In env (pullRequestsCreated (traceOf x)) ->
                SourceURL env <> ""%string
                /\ (exists envName,
                       In envName
                          (snd (fst (answer (getOrderedEnvironments w)))) /\
                       fst (fst (answer (getOrderedEnvironments w))) envName
                       = Some env)
                /\ preliminariesSucceeded w)).
  - intros s err c' env H. destruct H.
  - intros s evs c' out IH env H. exact (IH env H).
  - intros envMap envNames username c' Hp He env H. rewrite He. cbn [fst snd].
    destruct (appNameFromJenkinsJobName name) as [appName | ];
      [ | destruct H ].
    assert (Hin : In env
                    (pullRequestsCreated
                       (traceOf (removeFromEnvironments ColorInfo fuel o w
                                   envMap appName username 0 envNames c')))).
    { destruct (orReturn_cases
                  (removeFromEnvironments ColorInfo fuel o w envMap appName
                     username 0 envNames)
                  (collaborate (EvDeleteJob name) (deleteJob w)
                     (fun _ => finish None)) c') as [[_ [Ht _]] | [_ Ht]];
        rewrite Ht in H; [ | exact H ].
      rewrite deleteJob_step, pullRequestsCreated_app in H.
      apply in_app_or in H. destruct H as [H | []]. exact H. }
    destruct (removeFromEnvironments_pullRequests _ _ _ _ _ _ _ _ _ _ Hin)
      as [Hs Hex].
    split; [ exact Hs | split; [ exact Hex | exact Hp ] ].
Qed.

(** The jobs [deleteApp] deletes. *)
Lemma deleteApp_jobs fuel o w name c :
  jobsDeleted (traceOf (deleteApp ColorInfo fuel o w name c)) = []
  \/ (jobsDeleted (traceOf (deleteApp ColorInfo fuel o w name c)) = [name] /\
      exists evs,
        traceOf (deleteApp ColorInfo fuel o w name c)
        = evs ++ [EvDeleteJob name] /\
        outcomeOf (deleteApp ColorInfo fuel o w name c)
        = Finished (option_map CallFailed (snd (answer (deleteJob w))))).
Proof.
  apply (deleteApp_through
           (fun x => jobsDeleted (traceOf x) = []
                     \/ (jobsDeleted (traceOf x) = [name] /\
                         exists evs,
                           traceOf x = evs ++ [EvDeleteJob name] /\
                           outcomeOf x
                           = Finished (option_map CallFailed
                                         (snd (answer (deleteJob w))))))).
  - intros s err c'. now left.
  - intros s evs c' out [IH | [IH [evs' [Et Ho]]]]; [ now left | right ].
    split; [ exact IH | ]. exists (EvCollaborator s :: evs').
    cbn [traceOf outcomeOf fst snd] in *. rewrite Et. split; [ | exact Ho ].
    reflexivity.
  - intros envMap envNames username c' _ _.
    destruct (appNameFromJenkinsJobName name) as [appName | ];
      [ | now left ].
    destruct (orReturn_cases
                (removeFromEnvironments ColorInfo fuel o w envMap appName
                   username 0 envNames)
                (collaborate (EvDeleteJob name) (deleteJob w)
                   (fun _ => finish None)) c') as [[_ [Ht Ho]] | [_ Ht]].
    + right. rewrite Ht, Ho, deleteJob_step, jobsDeleted_app,
        removeFromEnvironments_jobs.
      split; [ reflexivity | ].
      eexists. split; reflexivity.
    + left. rewrite Ht. apply removeFromEnvironments_jobs.
Qed.

(** X12: [deleteApp] deletes at most the one job it is called for, as its
    last step, and then returns what [DeleteJob] returned.  So when it ends
    in any other way, with the error of a poll loop in particular (request
    closed, timed out, build red, refresh failed), the job is not
    deleted. *)
Theorem job_deleted_last_if_at_all fuel o w name c :
  let r := deleteApp ColorInfo fuel o w name c in
  (jobsDeleted (traceOf r) = []
   \/ (jobsDeleted (traceOf r) = [name] /\
       exists evs, traceOf r = evs ++ [EvDeleteJob name] /\
       outcomeOf r
       = Finished (option_map CallFailed (snd (answer (deleteJob w))))))
  /\ (forall e, outcomeOf r = Finished (Some (PollFailed e)) ->
                jobsDeleted (traceOf r) = []).
Proof.
  cbv zeta.
  assert (H := deleteApp_jobs fuel o w name c).
  split; [ exact H | ].
  intros e He. destruct H as [H | [_ [_ [_ Ho]]]]; [ exact H | ].
  rewrite Ho in He. destruct (snd (answer (deleteJob w))); discriminate He.
Qed.

(** X13: the environments are gone through in the order of the names, and
    the first removal that does not return [nil] ends the loop: removing
    from [before ++ after] is removing from [before] and, only when that
    returned [nil], from [after]; when it did not, nothing of [after] is
    touched. *)
Theorem environments_in_order_until_failure fuel o w envMap appName username
    before after i c :
  let part := removeFromEnvironments ColorInfo fuel o w envMap appName
                username i before in
  let whole := removeFromEnvironments ColorInfo fuel o w envMap appName
                 username i (before ++ after) in
  whole c
  = orReturn part
      (removeFromEnvironments ColorInfo fuel o w envMap appName username
         (i + List.length before) after) c
  /\ (outcomeOf (part c) <> Finished None -> whole c = part c).
Proof.
  cbv zeta. rewrite removeFromEnvironments_app. split; [ reflexivity | ].
  intros H.
  destruct (orReturn_cases
              (removeFromEnvironments ColorInfo fuel o w envMap appName
                 username i before)
              (removeFromEnvironments ColorInfo fuel o w envMap appName
                 username (i + List.length before) after) c)
    as [[Hn _] | [_ E]]; [ contradiction | exact E ].
Qed.

(** X14: [deleteAppFromEnvironment] returns [nil] only in three cases: the
    environment has no source URL; or [createEnvironmentPullRequest]
    returned no error and no pull request; or it returned a pull request
    and a status refresh of the poll loop reported that request merged. *)
Theorem removal_success_means_merged fuel o create env appName username c :
  outcomeOf (deleteAppFromEnvironment ColorInfo fuel o create env appName
               username c) = Finished None ->
  SourceURL env = ""%string
  \/ exists pullRequestInfo,
       answer create = (pullRequestInfo, None) /\
       match pullRequestInfo with
       | None => True
       | Some info =>
           exists k p, answer (update (GitProvider info k)) = (p, None) /\
                       isMerged p = true
       end.
Proof.
  destruct (deleteAppFromEnvironment_cases fuel o create env appName username
              c)
    as [[Hs _] | [[_ [? [? [_ [_ [_ Ho]]]]]] | [_ [info [Ec [_ [_ Ho]]]]]]];
    cbv zeta in *.
  - now left.
  - rewrite Ho. discriminate.
  - rewrite Ho, outcomeOf_ofWait. intros H. right. exists info.
    split; [ exact Ec | ]. destruct info as [info | ]; [ | exact I ].
    destruct (TimeoutDuration o) as [timeout | ] eqn:Ht.
    + rewrite (deleteApp_wait_Some _ _ _ _ _ _ Ht), result_prefixed in H.
      destruct (result (pollLoop ColorInfo fuel o (GitProvider info)
                          (c + elapsed create + timeout) timeout 0
                          (mkLocals (PullRequest info) false)
                          (c + elapsed create)))
        as [l | [err | ] | ] eqn:Hr; try discriminate H.
      destruct (pollLoop_justified ColorInfo _ _ _ _ _ _ _ _ _ Hr)
        as [k [_ Hj]].
      unfold justified in Hj. cbn [Nat.add] in Hj.
      destruct (answer (update (GitProvider info k))) as [p e] eqn:Ep.
      destruct Hj as [-> Hm]. exists k, p. split; [ exact Ep | exact Hm ].
    + unfold deleteAppFromEnvironment_wait in H. rewrite Ht in H.
      discriminate H.
Qed.

(** [deleteApp] panics only for want of a duration. *)
Lemma deleteApp_no_crash fuel o w name c timeout d :
  TimeoutDuration o = Some timeout ->
  PullRequestPollDuration o = Some d ->
  outcomeOf (deleteApp ColorInfo fuel o w name c) <> Crashed.
Proof.
  intros Ht Hd.
  apply (deleteApp_through (fun x => outcomeOf x <> Crashed)).
  - intros s err c'. discriminate.
  - intros s evs c' out IH. exact IH.
  - intros envMap envNames username c' _ _.
    destruct (appName_defined name) as [appName ->].
    destruct (orReturn_cases
                (removeFromEnvironments ColorInfo fuel o w envMap appName
                   username 0 envNames)
                (collaborate (EvDeleteJob name) (deleteJob w)
                   (fun _ => finish None)) c') as [[_ [_ Ho]] | [_ E]].
    + rewrite Ho, deleteJob_step. discriminate.
    + rewrite E. intros Hc.
      apply removeFromEnvironments_Crashed_inv in Hc.
      destruct Hc; congruence.
Qed.

(** X15: with a timeout and a poll time set, [deleteApp] never panics:
    the application name of the job is always defined, and no nil duration
    is dereferenced. *)
Theorem deleteApp_never_crashes fuel o w name c timeout d :
  TimeoutDuration o = Some timeout ->
  PullRequestPollDuration o = Some d ->
  outcomeOf (deleteApp ColorInfo fuel o w name c) <> Crashed.
Proof. exact (deleteApp_no_crash fuel o w name c timeout d). Qed.

End Deleting.

(** ** The command *)

Section Commanding.

Variable ColorInfo : string -> string.
Variable ParseDuration : string -> Z + string.
Variable StringArrayIndex : list string -> string -> Z.

(** A key of the job map holds a multi-branch job of that name. *)
Lemma collectApps_sound jobs :
  forall names m k job,
    snd (collectApps jobs names m) k = Some job ->
    m k = Some job
    \/ (In job jobs /\ multiBranch job = true /\ FullName job = k).
Proof.
  induction jobs as [ | j rest IH]; intros names m k job H; [ now left | ].
  cbn [collectApps] in H. destruct (multiBranch j) eqn:Hj.
  - apply IH in H. destruct H as [H | [Hin H]].
    + destruct (String.eqb_spec k (FullName j)) as [E | E].
      * injection H as <-. right. repeat split; [ now left | exact Hj | ].
        now symmetry.
      * now left.
    + right. split; [ now right | exact H ].
  - apply IH in H. destruct H as [H | [Hin H]]; [ now left | ].
    right. split; [ now right | exact H ].
Qed.

(** The loop over the chosen names deletes only jobs that are chosen and
    in the job map, and panics only for want of a duration. *)
Lemma deleteApps_jobs fuel o w m args :
  forall i c j,
    In j (jobsDeleted (traceOf (deleteApps ColorInfo fuel o w m i args c))) ->
    In j args /\ exists job, m j = Some job.
Proof.
  induction args as [ | name rest IH]; intros i c j H; [ destruct H | ].
  cbn [deleteApps] in H. destruct (m name) as [job | ] eqn:Em.
  - assert (Hd := deleteApp_jobs ColorInfo fuel o (apps w i) name c).
    assert (Hone : In j (jobsDeleted
                           (traceOf (deleteApp ColorInfo fuel o (apps w i)
                                       name c))) ->
                   In j (name :: rest) /\ exists job, m j = Some job).
    { intros Hin. destruct Hd as [Hd | [Hd _]]; rewrite Hd in Hin.
      - destruct Hin.
      - destruct Hin as [<- | []]. split; [ now left | now exists job ]. }
    destruct (orReturn_cases
                (deleteApp ColorInfo fuel o (apps w i) name)
                (deleteApps ColorInfo fuel o w m (S i) rest) c)
      as [[_ [Ht _]] | [_ Ht]]; rewrite Ht in H.
    + rewrite jobsDeleted_app in H. apply in_app_or in H.
      destruct H as [H | H]; [ exact (Hone H) | ].
      destruct (IH _ _ _ H) as [Hin Hm]. split; [ now right | exact Hm ].
    + exact (Hone H).
  - destruct (IH _ _ _ H) as [Hin Hm]. split; [ now right | exact Hm ].
Qed.

Lemma deleteApps_no_crash fuel o w m args timeout d :
  TimeoutDuration o = Some timeout ->
  PullRequestPollDuration o = Some d ->
  forall i c,
    outcomeOf (deleteApps ColorInfo fuel o w m i args c) <> Crashed.
Proof.
  intros Ht Hd. induction args as [ | name rest IH]; intros i c;
    [ discriminate | ].
  cbn [deleteApps]. destruct (m name) as [job | ]; [ | apply IH ].
  destruct (orReturn_cases
              (deleteApp ColorInfo fuel o (apps w i) name)
              (deleteApps ColorInfo fuel o w m (S i) rest) c)
    as [[_ [_ Ho]] | [_ E]].
  - rewrite Ho. apply IH.
  - rewrite E. exact (deleteApp_no_crash ColorInfo fuel o (apps w i) name c
                        timeout d Ht Hd).
Qed.

(** The three ways [confirmAndDelete] goes. *)
Lemma confirmAndDelete_cases fuel o w m args c :
  let r := confirmAndDelete ColorInfo fuel o w m args c in
  let d := deleteApps ColorInfo fuel o w m 0 args
             (c + elapsed (confirm w)) in
  (args = [] /\ r = ([], c, Finished (Some NoApps)))
  \/ (answer (confirm w) = false /\
      r = ([EvConfirm (msgConfirm (Join args ", "))],
           c + elapsed (confirm w), Finished None))
  \/ (answer (confirm w) = true /\
      jobsDeleted (traceOf r) = jobsDeleted (traceOf d) /\
      (outcomeOf r = outcomeOf d \/ outcomeOf r = Finished None)).
Proof.
  cbv zeta. destruct args as [ | name rest]; [ now left | right ].
  unfold confirmAndDelete.
  destruct (answer (confirm w)) eqn:Ec; [ right | left; now split ].
  split; [ reflexivity | ]. cbn [negb].
  destruct (orReturn_cases
              (deleteApps ColorInfo fuel o w m 0 (name :: rest))
              (fun c' =>
                 ([Ev (EvPrintf (msgDeleted ColorInfo
                                   (Join (name :: rest) ", ")))], c',
                  Finished None)) (c + elapsed (confirm w)))
    as [[_ [Ht Ho]] | [_ E]].
  - destruct (orReturn _ _ _) as [[evs c2] out].
    cbn [traceOf outcomeOf fst snd] in *. subst evs out.
    cbn [jobsDeleted]. rewrite jobsDeleted_app. cbn [jobsDeleted].
    rewrite app_nil_r. split; [ reflexivity | now right ].
  - rewrite E.
    destruct (deleteApps ColorInfo fuel o w m 0 (name :: rest)
                (c + elapsed (confirm w))) as [[evs c2] out].
    split; [ reflexivity | now left ].
Qed.

(** A flag that is not the empty string sets the duration, or fails. *)
Lemma parseFlag_set value current parsed :
  value <> ""%string ->
  parseFlag ParseDuration value current = inl parsed ->
  exists d, parsed = Some d /\ ParseDuration value = inl d.
Proof.
  intros Hv. unfold parseFlag. apply String.eqb_neq in Hv. rewrite Hv.
  destruct (ParseDuration value) as [d | err]; [ | discriminate ].
  intros H. injection H as <-. now exists d.
Qed.

Lemma parseFlag_valid value current parsed :
  parseFlag ParseDuration value current = inl parsed ->
  value = ""%string \/ exists d, ParseDuration value = inl d.
Proof.
  unfold parseFlag. destruct (String.eqb_spec value "") as [E | E];
    [ now left | ].
  destruct (ParseDuration value) as [d | err]; [ | discriminate ].
  intros _. right. now exists d.
Qed.

(** [Run] up to the confirmation: a property of runs that holds of every
    early return and is kept when the event of a call is put in front holds
    of [Run] if it holds of the part from the confirmation on. *)
Lemma Run_through (P : list AppEvent * Z * Outcome -> Prop) fuel flags o w c :
  (forall c' err, P ([], c', Finished err)) ->
  (forall s c' err, P ([EvCollaborator s], c', Finished err)) ->
  (forall names c' err, P ([EvSelectNamesWithFilter names], c', Finished err)) ->
  (forall s evs c' out, P (evs, c', out) -> P (EvCollaborator s :: evs, c', out)) ->
  (forall names evs c' out,
      P (evs, c', out) -> P (EvSelectNamesWithFilter names :: evs, c', out)) ->
  (forall jobs poll timeout args c',
      fst (answer (loadAllJenkinsJobs w)) = jobs ->
      parseFlag ParseDuration (PullRequestPollTime flags)
        (PullRequestPollDuration o) = inl poll ->
      parseFlag ParseDuration (Timeout flags) (TimeoutDuration o)
      = inl timeout ->
      (Args flags <> [] -> args = Args flags) ->
      P (confirmAndDelete ColorInfo fuel
           (mkOptions (NoMergePullRequest o) timeout poll) w
           (snd (collectApps jobs [] (fun _ => None))) args c')) ->
  P (Run ColorInfo ParseDuration StringArrayIndex fuel flags o w c).
Proof.
  intros Hnil Herr Hsel Hcons Hcons' Hcore. unfold Run.
  apply collaborate_keeps; [ intros; apply Herr | apply Hcons | ].
  intros a1 _.
  apply collaborate_keeps; [ intros; apply Herr | apply Hcons | ].
  intros jobs Ej.
  assert (Hjobs : fst (answer (loadAllJenkinsJobs w)) = jobs).
  { unfold error in *. now rewrite Ej. }
  destruct (collectApps jobs [] (fun _ => None)) as [names m] eqn:Ec.
  assert (Hm : m = snd (collectApps jobs [] (fun _ => None)))
    by (now rewrite Ec).
  destruct (parseFlag ParseDuration (PullRequestPollTime flags)
              (PullRequestPollDuration o)) as [poll | err] eqn:Ep;
    [ | apply Hnil ].
  destruct (parseFlag ParseDuration (Timeout flags) (TimeoutDuration o))
    as [timeout | err] eqn:Et; [ | apply Hnil ].
  destruct names as [ | n0 names]; [ apply Hnil | ].
  destruct (Args flags) as [ | a0 args] eqn:Ea.
  - apply collaborate_keeps; [ intros; apply Hsel | apply Hcons' | ].
    intros args _. rewrite Hm.
    apply (Hcore jobs poll timeout args _ Hjobs eq_refl eq_refl).
    intros H. now contradiction H.
  - destruct (firstInvalidArg StringArrayIndex (n0 :: names) (a0 :: args));
      [ apply Hnil | ].
    rewrite Hm.
    apply (Hcore jobs poll timeout (a0 :: args) _ Hjobs eq_refl eq_refl).
    reflexivity.
Qed.

(** X16: [Run] deletes a Jenkins job only after the user confirmed, only
    when both duration flags are empty or parse, and only a job that is
    the full name of a multi-branch project among the loaded jobs and, when
    arguments were given, one of the arguments. *)
Theorem deleted_jobs_are_confirmed_applications fuel flags o w c j :
  In j (jobsDeleted
          (traceOf (Run ColorInfo ParseDuration StringArrayIndex fuel flags
                      o w c))) ->
  answer (confirm w) = true
  /\ (exists job, In job (fst (answer (loadAllJenkinsJobs w))) /\
                  multiBranch job = true /\ FullName job = j)
  /\ (PullRequestPollTime flags = ""%string
      \/ exists d, ParseDuration (PullRequestPollTime flags) = inl d)
  /\ (Timeout flags = ""%string
      \/ exists d, ParseDuration (Timeout flags) = inl d)
  /\ (Args flags <> [] -> In j (Args flags)).
Proof.
  revert j.
  apply (Run_through
           (fun x => forall j,
                In j (jobsDeleted (traceOf x)) ->
                answer (confirm w) = true
                /\ (exists job,
                       In job (fst (answer (loadAllJenkinsJobs w))) /\
                       multiBranch job = true /\ FullName job = j)
                /\ (PullRequestPollTime flags = ""%string
                    \/ exists d,
                         ParseDuration (PullRequestPollTime flags) = inl d)
                /\ (Timeout flags = ""%string
                    \/ exists d, ParseDuration (Timeout flags) = inl d)
                /\ (Args flags <> [] -> In j (Args flags)))).
  - intros c' err j H. destruct H.
  - intros s c' err j H. destruct H.
  - intros names c' err j H. destruct H.
  - intros s evs c' out IH j H. exact (IH j H).
  - intros names evs c' out IH j H. exact (IH j H).
  - intros jobs poll timeout args c' Hjobs Hp Ht Hargs j H.
    destruct (confirmAndDelete_cases fuel
                (mkOptions (NoMergePullRequest o) timeout poll) w
                (snd (collectApps jobs [] (fun _ => None))) args c')
      as [[_ Hr] | [[_ Hr] | [Hc [Hj _]]]]; cbv zeta in *.
    + rewrite Hr in H. destruct H.
    + rewrite Hr in H. destruct H.
    + rewrite Hj in H. apply deleteApps_jobs in H.
      destruct H as [Hin [job Hm]].
      apply collectApps_sound in Hm.
      destruct Hm as [Hm | Hm]; [ discriminate Hm | ].
      split; [ exact Hc | ].
      split; [ exists job; now rewrite Hjobs | ].
      split; [ exact (parseFlag_valid _ _ _ Hp) | ].
      split; [ exact (parseFlag_valid _ _ _ Ht) | ].
      intros Hne. now rewrite <- (Hargs Hne).
Qed.

(** X17: when the user does not confirm, [Run] asks for no pull request
    and deletes no job. *)
Theorem nothing_touched_without_confirmation fuel flags o w c :
  answer (confirm w) = false ->
  let r := Run ColorInfo ParseDuration StringArrayIndex fuel flags o w c in
  pullRequestsCreated (traceOf r) = [] /\ jobsDeleted (traceOf r) = [].
Proof.
  intros Hc. cbv zeta.
  apply (Run_through
           (fun x => pullRequestsCreated (traceOf x) = []
                     /\ jobsDeleted (traceOf x) = [])).
  - intros c' err. now split.
  - intros s c' err. now split.
  - intros names c' err. now split.
  - intros s evs c' out IH. exact IH.
  - intros names evs c' out IH. exact IH.
  - intros jobs poll timeout args c' _ _ _ _.
    destruct (confirmAndDelete_cases fuel
                (mkOptions (NoMergePullRequest o) timeout poll) w
                (snd (collectApps jobs [] (fun _ => None))) args c')
      as [[_ Hr] | [[_ Hr] | [Hc' _]]]; cbv zeta in *.
    + rewrite Hr. now split.
    + rewrite Hr. now split.
    + congruence.
Qed.

(** X18: when neither duration flag is the empty string, [Run] never
    panics: a flag that parses sets its duration, one that does not parse
    ends [Run] with an error before anything is deleted. *)
Theorem Run_never_crashes_with_flags fuel flags o w c :
  PullRequestPollTime flags <> ""%string ->
  Timeout flags <> ""%string ->
  outcomeOf (Run ColorInfo ParseDuration StringArrayIndex fuel flags o w c)
  <> Crashed.
Proof.
  intros Hpoll Htime.
  apply (Run_through (fun x => outcomeOf x <> Crashed)).
  - intros c' err. discriminate.
  - intros s c' err. discriminate.
  - intros names c' err. discriminate.
  - intros s evs c' out IH. exact IH.
  - intros names evs c' out IH. exact IH.
  - intros jobs poll timeout args c' _ Hp Ht _.
    destruct (parseFlag_set _ _ _ Hpoll Hp) as [d [-> _]].
    destruct (parseFlag_set _ _ _ Htime Ht) as [t [-> _]].
    destruct (confirmAndDelete_cases fuel
                (mkOptions (NoMergePullRequest o) (Some t) (Some d)) w
                (snd (collectApps jobs [] (fun _ => None))) args c')
      as [[_ Hr] | [[_ Hr] | [_ [_ [Ho | Ho]]]]]; cbv zeta in *.
    + rewrite Hr. discriminate.
    + rewrite Hr. discriminate.
    + rewrite Ho.
      apply deleteApps_no_crash with (timeout := t) (d := d); reflexivity.
    + rewrite Ho. discriminate.
Qed.

End Commanding.

(** ** The further properties at work *)

Module MoreRuns.

Import Examples.
Local Open Scope string_scope.

Lemma nil_return_means_merged_witness :
  exists k p,
    ticks (events (waitForGitOpsPullRequest plain 5 opts (Some merging)
                     deadline deadline 0)) = S k
    /\ answer (update (mergingProvider k)) = (p, None)
    /\ isMerged p = true
    /\ forall j, (j < k)%nat ->
         exists q, answer (update (mergingProvider j)) = (q, None) /\
                   isMerged q = false /\ IsClosed q = false.
Proof.
  apply (nil_return_means_merged plain 5 opts merging deadline deadline 0).
  reflexivity.
Defined.

Lemma undecided_status_no_action_witness :
  pollLoop plain 1 opts pendingProvider deadline deadline 0 start 0
  = prefixed
      [EvUpdatePullRequestStatus 0; EvPullRequestLastCommitStatus 0]
      (bind (endOfTick opts deadline deadline openPR false)
            (fun l' => pollLoop plain 0 opts pendingProvider deadline
                         deadline 1 l')
            (0 + elapsed (update (pendingProvider 0%nat))
               + elapsed (lastCommitStatus (pendingProvider 0%nat)))).
Proof.
  apply (undecided_status_no_action plain 0 opts pendingProvider deadline
           deadline 0 start 0 openPR "pending");
    [ reflexivity | reflexivity | reflexivity | reflexivity
    | discriminate | discriminate | discriminate ].
Defined.

Lemma merge_success_goes_on_witness :
  pollLoop plain 1 opts mergingProvider deadline deadline 0 start 0
  = prefixed
      [EvUpdatePullRequestStatus 0; EvPullRequestLastCommitStatus 0;
       EvMergePullRequest 0 mergeMessage]
      (bind (endOfTick opts deadline deadline openPR false)
            (fun l' => pollLoop plain 0 opts mergingProvider deadline
                         deadline 1 l')
            (0 + elapsed (update (mergingProvider 0%nat))
               + elapsed (lastCommitStatus (mergingProvider 0%nat))
               + elapsed (merge (mergingProvider 0%nat)))).
Proof.
  apply (merge_success_goes_on plain 0 opts mergingProvider deadline deadline
           0 start 0 openPR);
    [ reflexivity | reflexivity | reflexivity | reflexivity | reflexivity
    | reflexivity ].
Defined.

Lemma passed_deadline_one_iteration_witness :
  let r := waitForGitOpsPullRequest plain 3 optsNoPoll (Some pending)
             (- second) deadline 0 in
  (exists err, result r = Return err)
  /\ ticks (events r) = 1%nat
  /\ sleeps (events r) = [].
Proof.
  apply (passed_deadline_one_iteration plain 2 optsNoPoll pending (- second)
           deadline 0).
  reflexivity.
Defined.

Lemma nil_poll_time_one_iteration_witness :
  let r := waitForGitOpsPullRequest plain 3 optsNoPoll (Some pending)
             deadline deadline 0 in
  ticks (events r) = 1%nat
  /\ sleeps (events r) = []
  /\ (result r = Panic \/ exists err, result r = Return err).
Proof.
  apply (nil_poll_time_one_iteration plain 2 optsNoPoll pending deadline
           deadline 0).
  reflexivity.
Defined.

Lemma timeout_overshoot_bound_witness :
  let r := deleteAppFromEnvironment_wait plain 10 opts (Some pending) 0 in
  0 + deadline < clockAfter r <= 0 + deadline + Z.max 0 (20 * second) + 0.
Proof.
  apply (timeout_overshoot_bound plain 10 opts pending deadline (20 * second)
           0 0 url deadline);
    [ reflexivity | discriminate | reflexivity | | reflexivity ].
  intros n. discriminate.
Defined.

Lemma one_sleep_between_iterations_witness :
  let r := waitForGitOpsPullRequest plain 10 opts (Some pending)
             deadline deadline 0 in
  ticks (events r) = S (List.length (sleeps (events r)))
  /\ Forall (eq (20 * second)) (sleeps (events r)).
Proof.
  apply (one_sleep_between_iterations plain 10 opts pending deadline deadline
           0 (20 * second) (Some (ErrTimedOut url deadline)));
    [ reflexivity | reflexivity ].
Defined.

Lemma pull_requests_only_for_sourced_environments_witness :
  SourceURL stagingEnv <> ""
  /\ (exists envName,
         In envName (snd (fst (answer (getOrderedEnvironments calmWorld)))) /\
         fst (fst (answer (getOrderedEnvironments calmWorld))) envName
         = Some stagingEnv)
  /\ preliminariesSucceeded calmWorld.
Proof.
  apply (pull_requests_only_for_sourced_environments plain 10 opts calmWorld
           "acme/cheese" 0 stagingEnv).
  vm_compute. left. reflexivity.
Defined.

Lemma removal_success_means_merged_witness :
  SourceURL stagingEnv = ""
  \/ exists pullRequestInfo,
       answer (createEnvironmentPullRequest calmWorld 1)
       = (pullRequestInfo, None) /\
       match pullRequestInfo with
       | None => True
       | Some info =>
           exists k p, answer (update (GitProvider info k)) = (p, None) /\
                       isMerged p = true
       end.
Proof.
  apply (removal_success_means_merged plain 10 opts
           (createEnvironmentPullRequest calmWorld 1) stagingEnv "cheese"
           "jdoe" 0).
  reflexivity.
Defined.

Lemma deleteApp_never_crashes_witness :
  outcomeOf (deleteApp plain 10 opts calmWorld "acme/cheese" 0) <> Crashed.
Proof.
  apply (deleteApp_never_crashes plain 10 opts calmWorld "acme/cheese" 0
           (40 * second) (20 * second));
    [ reflexivity | reflexivity ].
Defined.

Lemma deleted_jobs_are_confirmed_applications_witness :
  answer (confirm (runWorld true)) = true
  /\ (exists job, In job (fst (answer (loadAllJenkinsJobs (runWorld true)))) /\
                  multiBranch job = true /\ FullName job = "acme/cheese")
  /\ (PullRequestPollTime flags = ""
      \/ exists d, parseSeconds (PullRequestPollTime flags) = inl d)
  /\ (Timeout flags = "" \/ exists d, parseSeconds (Timeout flags) = inl d)
  /\ (Args flags <> [] -> In "acme/cheese" (Args flags)).
Proof.
  apply (deleted_jobs_are_confirmed_applications plain parseSeconds indexOf
           10 flags fresh (runWorld true) 0 "acme/cheese").
  vm_compute. left. reflexivity.
Defined.

Lemma nothing_touched_without_confirmation_witness :
  let r := Run plain parseSeconds indexOf 10 flags fresh (runWorld false) 0 in
  pullRequestsCreated (traceOf r) = [] /\ jobsDeleted (traceOf r) = [].
Proof.
  apply (nothing_touched_without_confirmation plain parseSeconds indexOf 10
           flags fresh (runWorld false) 0).
  reflexivity.
Defined.

Lemma Run_never_crashes_with_flags_witness :
  outcomeOf (Run plain parseSeconds indexOf 10 flags fresh (runWorld true) 0)
  <> Crashed.
Proof.
  apply (Run_never_crashes_with_flags plain parseSeconds indexOf 10 flags
           fresh (runWorld true) 0);
    [ discriminate | discriminate ].
Defined.

End MoreRuns.
